(** * Parallel ufunc dispatcher (numba/npyufunc/parallel.py)

    A shallow embedding of the code that [build_ufunc_kernel] and
    [build_gufunc_kernel] emit, of the compare-and-swap function of
    [_make_cas_function], of the lifetime guard [_ProtectEngineDestroy] and of
    the module-level start-up code, followed by the properties of the
    dispatcher's partitioning arithmetic, of its task submissions and of the
    start-up and tear-down logic.

    The Python functions are code generators: their [for] loops run when the
    wrapper is built and leave straight-line LLVM instructions behind.  What is
    embedded here is the run of those instructions on a small machine (stack
    slots made by [alloca], the caller's arrays, the sequence of external
    calls), with the loops of the generator kept as recursion over the same
    index ranges. *)

From Stdlib Require Import ZArith Lia List.
From stdpp Require Import base option list gmap strings.

Local Open Scope Z_scope.

(** ** Machine integers

    [intp_t] is an integer of [w] bits.  A value is kept as its unsigned
    representative; LLVM's [add], [sub] and [mul] wrap around, [udiv] is the
    unsigned division and is undefined on a zero divisor. *)

Module Word.

Section Width.

Variable w : Z.

Definition modulus : Z := 2 ^ w.

Definition wrap (z : Z) : Z := z mod modulus.

(** The value of a word read as a signed ([npy_intp]) number. *)
Definition signed (z : Z) : Z :=
  if z <? 2 ^ (w - 1) then z else z - modulus.

(** [lc.Constant.int(ty, n)] *)
Definition const (n : Z) : Z := wrap n.

Definition add (a b : Z) : Z := wrap (a + b).
Definition sub (a b : Z) : Z := wrap (a - b).
Definition mul (a b : Z) : Z := wrap (a * b).

Definition udiv (a b : Z) : option Z :=
  if b =? 0 then None else Some (a / b).

End Width.

End Word.

(** ** The machine the generated wrapper runs on *)

(** A pointer handed to the worker pool is either an address the wrapper got
    from its caller (or the address of a function), or one of the wrapper's own
    stack slots. *)
Inductive ptr : Type :=
  | Raw (a : Z)
  | Slot (b : nat).

(** The instructions of the wrapper that are visible from outside: the calls to
    [numba_add_task], [numba_ready] and [numba_synchronize], and the final
    [ret void]. *)
Inductive event : Type :=
  | Call_add_task (fn args dims steps data : ptr)
  | Call_ready
  | Call_synchronize
  | Ret_void.

(** Stack slots in allocation order; a cell holds [None] until it is stored
    to. *)
Record machine : Type := Machine {
  slots : list (list (option Z));
  events : list event
}.

(** An array of the caller: where it lives and what it holds. *)
Record array : Type := Array {
  addr : Z;
  cells : list Z
}.

(** State and failure; [None] is undefined behaviour of the generated code (or
    an exception while generating it). *)
Definition M (A : Type) : Type := machine -> option (A * machine).

Definition ret {A} (a : A) : M A := fun m => Some (a, m).

Definition bind {A B} (c : M A) (k : A -> M B) : M B :=
  fun m => match c m with
           | Some (a, m') => k a m'
           | None => None
           end.

Definition lift {A} (o : option A) : M A :=
  fun m => match o with
           | Some a => Some (a, m)
           | None => None
           end.

Declare Scope machine_scope.
Delimit Scope machine_scope with machine.
Notation "'do' x <- c ; k" := (bind c (fun x => k))
  (at level 10, x name, c at level 100, k at level 200) : machine_scope.
Notation "c1 ;; c2" := (bind c1 (fun _ => c2))
  (at level 100, c2 at level 200, right associativity) : machine_scope.
Local Open Scope machine_scope.

(** [builder.alloca(ty, size=n)] *)
Definition alloca (n : nat) : M nat :=
  fun m => Some (length (slots m),
                 Machine (slots m ++ [replicate n None]) (events m)).

(** [builder.store(v, builder.gep(space, [k]))] *)
Definition store (b k : nat) (v : Z) : M unit :=
  fun m => match slots m !! b with
           | Some blk =>
               if decide (k < length blk)%nat
               then Some (tt, Machine (<[b := <[k := Some v]> blk]> (slots m))
                                      (events m))
               else None
           | None => None
           end.

(** [builder.load(builder.gep(a, [k]))] on an array of the caller. *)
Definition load (a : array) (k : nat) : M Z := lift (cells a !! k).

(** Modelled from the spec: [cgutils.memcpy] (numba/cgutils.py is not among the
    sources).  It copies [n] elements, one by one, from the caller's array into
    the slot; the spec has the entries copied verbatim from the original
    dimensions array into the chunk's buffer. *)
Definition memcpy (b : nat) (src : array) (n : nat) : M unit :=
  fun m => match slots m !! b with
           | Some blk =>
               if decide (n <= length blk)%nat
               then if decide (n <= length (cells src))%nat
                    then Some (tt, Machine
                                 (<[b := (Some <$> take n (cells src))
                                           ++ drop n blk]> (slots m))
                                 (events m))
                    else None
               else None
           | None => None
           end.

(** [builder.call(f, ...)] and [builder.ret_void()] *)
Definition emit (e : event) : M unit :=
  fun m => Some (tt, Machine (slots m) (events m ++ [e])).

(** ** The dispatcher *)

Section Dispatcher.

(** Width of [intp_t] and the number of worker threads. *)
Variable w : Z.
Variable NUM_CPU : nat.

(** The loop that distributes the work: one slot per thread, the last thread
    takes all the leftover.  [mk_space] makes the slot; it is the one place
    where the two kernels differ.  The result is [count_list] and the last
    value of [remain]. *)
Fixpoint distribute (mk_space : M nat) (count : Z)
    (range : list nat) (remain : Z) : M (list nat * Z) :=
  match range with
  | [] => ret ([], remain)
  | i :: range' =>
      do space <- mk_space;
      if decide (i = NUM_CPU - 1)%nat then
        store space 0 remain;;
        do rest <- distribute mk_space count range' remain;
        ret (space :: rest.1, rest.2)
      else
        store space 0 count;;
        do rest <- distribute mk_space count range'
                     (Word.sub w remain count);
        ret (space :: rest.1, rest.2)
  end.

(** The increment step of each array. *)
Fixpoint load_steps (steps : array) (range : list nat) : M (list Z) :=
  match range with
  | [] => ret []
  | i :: range' =>
      do step <- load steps i;
      do rest <- load_steps steps range';
      ret (step :: rest)
  end.

(** The inner loop over the arrays: the subarray pointer of array [j] for
    thread [i]. *)
Fixpoint fill_lanes (args : array) (steps_list : list Z) (count : Z)
    (space i : nat) (range : list nat) : M unit :=
  match range with
  | [] => ret tt
  | j :: range' =>
      do base <- load args j;
      do step <- lift (steps_list !! j);
      let multiplier := Word.const w (Z.of_nat i) in
      let offset := Word.mul w step (Word.mul w count multiplier) in
      store space j (Word.add w base offset);;
      fill_lanes args steps_list count space i range'
  end.

(** The array argument set of each thread. *)
Fixpoint fill_args (args : array) (steps_list : list Z) (count : Z)
    (array_count : nat) (range : list nat) : M (list nat) :=
  match range with
  | [] => ret []
  | i :: range' =>
      do space <- alloca array_count;
      fill_lanes args steps_list count space i (seq 0 array_count);;
      do rest <- fill_args args steps_list count array_count range';
      ret (space :: rest)
  end.

(** One task per thread. *)
Fixpoint add_tasks (innerfunc : Z) (steps : array) (data : Z)
    (pairs : list (nat * nat)) : M unit :=
  match pairs with
  | [] => ret tt
  | (each_args, each_dims) :: pairs' =>
      emit (Call_add_task (Raw innerfunc) (Slot each_args) (Slot each_dims)
              (Raw (addr steps)) (Raw data));;
      add_tasks innerfunc steps data pairs'
  end.

(** The body that both kernels share: [.kernel(args, dimensions, steps,
    data)]. *)
Definition kernel (mk_space : M nat) (array_count : nat) (innerfunc : Z)
    (args dimensions steps : array) (data : Z) : M unit :=
  do total <- load dimensions 0;
  let ncpu := Word.const w (Z.of_nat NUM_CPU) in
  do count <- lift (Word.udiv total ncpu);
  do dist <- distribute mk_space count (seq 0 NUM_CPU) total;
  let count_list := dist.1 in
  do steps_list <- load_steps steps (seq 0 array_count);
  do args_list <- fill_args args steps_list count array_count
                    (seq 0 NUM_CPU);
  add_tasks innerfunc steps data (zip args_list count_list);;
  emit Call_ready;;
  emit Call_synchronize;;
  emit Ret_void.

(** [build_ufunc_kernel]: the slot of a thread is one [intp_t]. *)
Definition build_ufunc_kernel (nargs : nat) (innerfunc : Z)
    (args dimensions steps : array) (data : Z) : M unit :=
  kernel (alloca 1) (nargs + 1) innerfunc args dimensions steps data.

(** [build_gufunc_kernel]: the slot of a thread has [inner_ndim + 1] entries
    and starts as a copy of [dimensions].  ([cgutils.alloca_once] is an
    [alloca] placed in the entry block.) *)
Definition gufunc_space (dimensions : array) (inner_ndim : nat) : M nat :=
  do space <- alloca (inner_ndim + 1);
  memcpy space dimensions (inner_ndim + 1);;
  ret space.

Definition build_gufunc_kernel (nargs : nat) (innerfunc : Z)
    (inner_ndim : nat) (args dimensions steps : array) (data : Z)
    : M unit :=
  kernel (gufunc_space dimensions inner_ndim) (nargs + 1) innerfunc
    args dimensions steps data.

End Dispatcher.

(** A fresh stack frame, and the run of a wrapper on it. *)
Definition run (c : M unit) : option machine :=
  snd <$> c (Machine [] []).

(** ** The compare-and-swap function *)

Module Cas.

(** LLVM's [cmpxchg] on one word of memory: it yields the value it loaded and
    a bit that is set when the exchange took place.  An address outside the
    memory is undefined behaviour. *)
Definition cmpxchg (mem : gmap Z Z) (ptr cmp new : Z)
    : option ((Z * bool) * gmap Z Z) :=
  match mem !! ptr with
  | Some cur =>
      if decide (cur = cmp)
      then Some ((cur, true), <[ptr := new]> mem)
      else Some ((cur, false), mem)
  | None => None
  end.

(** [.numba.parallel.ufunc.cas(ptr, old, repl)], with the names of the
    generator: [failed] is the second field of the pair, the bit above. *)
Definition cas (mem : gmap Z Z) (ptr old repl : Z)
    : option (Z * gmap Z Z) :=
  match cmpxchg mem ptr old repl with
  | Some (outpack, mem') =>
      let out := outpack.1 in
      let failed := outpack.2 in
      Some (if failed then old else out, mem')
  | None => None
  end.

End Cas.

(** ** Start-up and tear-down *)

Module Runtime.

(** The functions of the [workqueue] extension that Python calls through
    [ctypes]. *)
Inductive cfunc : Type :=
  | Lib_set_cas
  | Lib_launch_threads.

(** [_ProtectEngineDestroy] *)
Record ProtectEngineDestroy : Type := Guard {
  set_cas : cfunc;
  engine : Z
}.

(** The process: the pool's global compare-and-swap pointer, the worker
    threads that were started, the symbols registered with LLVM, the list
    [_keepalive], and every call made into the extension so far. *)
Record world : Type := World {
  cas_pointer : Z;
  workers : nat;
  symbols : list string;
  _keepalive : list ProtectEngineDestroy;
  foreign_calls : list (cfunc * Z)
}.

(** Modelled from the spec: the [workqueue] extension is not among the
    sources.  [set_cas] registers the function pointer globally (the
    coordination primitive is a single function pointer registered
    globally); [launch_threads] is idempotent: it starts the threads the
    first time it is called and later calls are no-ops. *)
Definition call (f : cfunc) (arg : Z) (wd : world) : world :=
  let log := foreign_calls wd ++ [(f, arg)] in
  match f with
  | Lib_set_cas =>
      World arg (workers wd) (symbols wd) (_keepalive wd) log
  | Lib_launch_threads =>
      World (cas_pointer wd)
            (if decide (workers wd = 0%nat) then Z.to_nat arg
             else workers wd)
            (symbols wd) (_keepalive wd) log
  end.

(** [_ProtectEngineDestroy.__del__] *)
Definition __del__ (self : ProtectEngineDestroy) (wd : world) : world :=
  call (set_cas self) 0 wd.

(** [ll.add_symbol] *)
Definition add_symbol (name : string) (wd : world) : world :=
  World (cas_pointer wd) (workers wd) (symbols wd ++ [name])
        (_keepalive wd) (foreign_calls wd).

(** [_init]; [jit] is what [_make_cas_function] returned, the engine and the
    address of the compiled function. *)
Definition _init (jit : Z * Z) (wd : world) : world :=
  let wd := add_symbol "numba_add_task" wd in
  let wd := add_symbol "numba_synchronize" wd in
  let wd := add_symbol "numba_ready" wd in
  let set_cas := Lib_set_cas in
  let '(engine, cas_ptr) := jit in
  let wd := call set_cas cas_ptr wd in
  World (cas_pointer wd) (workers wd) (symbols wd)
        (_keepalive wd ++ [Guard set_cas engine]) (foreign_calls wd).

(** What the start-up code asks of the interpreter. *)
Record platform : Type := Platform {
  version_info : nat * nat;
  sys_platform : string;
  MACHINE_BITS : nat
}.

Section Toplevel.

(** [multiprocessing.cpu_count()], and Python's [int] on a string ([None]
    when it raises [ValueError]). *)
Variable cpu_count : nat.
Variable int : string -> option Z.

Definition NUM_CPU : nat := Nat.max 1 cpu_count.

Definition _launch_threads (wd : world) : world :=
  call Lib_launch_threads (Z.of_nat NUM_CPU) wd.

Definition _DYLD_WORKAROUND_SET (environ : gmap string string) : bool :=
  bool_decide (is_Some (environ !! "NUMBA_DYLD_WORKAROUND")).

Definition _DYLD_WORKAROUND_VAL (environ : gmap string string)
    : option Z :=
  match environ !! "NUMBA_DYLD_WORKAROUND" with
  | Some s => int s
  | None => Some 0
  end.

(** The statements of the module, from [_init()] on; [None] is an
    exception that aborts the import. *)
Definition module_body (environ : gmap string string) (plat : platform)
    (jit : Z * Z) (wd : world) : option world :=
  let wd := _init jit wd in
  match _DYLD_WORKAROUND_VAL environ with
  | None => None
  | Some val =>
      if _DYLD_WORKAROUND_SET environ && negb (val =? 0) then
        Some (_launch_threads wd)
      else if negb (_DYLD_WORKAROUND_SET environ) then
        if bool_decide (version_info plat = (2, 6)%nat)
           && String.prefix "linux" (sys_platform plat)
           && bool_decide (MACHINE_BITS plat = 64%nat)
        then Some (_launch_threads wd)
        else Some wd
      else Some wd
  end.

(** [ParallelUFuncBuilder.build] and [ParallelGUFuncBuilder.build] start
    with [_launch_threads()]; what follows compiles and links the wrapper
    and leaves the pool alone. *)
Definition build (wd : world) : world := _launch_threads wd.

End Toplevel.

(** The process before the module is imported. *)
Definition boot : world := World 0 0 [] [] [].

End Runtime.

(** ** What the loops compute

    The values that the loops of the dispatcher leave in the stack slots, as
    functions of the inputs alone.  The lemmas of the next part show that the
    machine holds exactly these. *)

Section Values.

Variable w : Z.
Variable NUM_CPU : nat.

(** The counts stored by [distribute] over [range], and the last value of
    [remain]. *)
Fixpoint chunk_values (count : Z) (range : list nat) (remain : Z)
    : list Z * Z :=
  match range with
  | [] => ([], remain)
  | i :: range' =>
      if decide (i = NUM_CPU - 1)%nat then
        let rest := chunk_values count range' remain in
        (remain :: rest.1, rest.2)
      else
        let rest := chunk_values count range' (Word.sub w remain count) in
        (count :: rest.1, rest.2)
  end.

(** The pointer of one array for thread [i]. *)
Definition subarray (base step count : Z) (i : nat) : Z :=
  Word.add w base
    (Word.mul w step (Word.mul w count (Word.const w (Z.of_nat i)))).

(** The cells of a thread's argument slot after [fill_lanes] over [range]. *)
Fixpoint lane_cells (args steps_list : list Z) (count : Z) (i : nat)
    (range : list nat) (blk : list (option Z)) : list (option Z) :=
  match range with
  | [] => blk
  | j :: range' =>
      lane_cells args steps_list count i range'
        (<[j := Some (subarray (args !!! j) (steps_list !!! j) count i)]>
           blk)
  end.

(** The steps as [load_steps] leaves them in [steps_list]. *)
Definition loaded_steps (steps : array) (array_count : nat) : list Z :=
  (fun j => cells steps !!! j) <$> seq 0 array_count.

(** The value of [remain] after [k] passes through the branch of the threads
    that are not the last. *)
Fixpoint remain_after (count : Z) (k : nat) (remain : Z) : Z :=
  match k with
  | O => remain
  | S k' => remain_after count k' (Word.sub w remain count)
  end.

(** Modelled from the spec: the inner kernel is built by [ufuncbuilder], which
is not among the sources.  By its calling convention it walks each array
from the pointer it is given, [dimensions[0]] elements that are [step]
bytes apart.  These are the bytes it touches in one array, for elements of
[itemsize] bytes. *)
Definition chunk_bytes (itemsize : nat) (start step n : Z) : list Z :=
  k ← seq 0 (Z.to_nat n);
  (fun b : nat => Word.wrap w (start + step * Z.of_nat k + Z.of_nat b))
    <$> seq 0 itemsize.

End Values.

(** The dimension slots and argument slots of the tasks that a run submitted,
    in submission order. *)
Definition task_dims (e : event) : option ptr :=
  match e with
  | Call_add_task _ _ dims _ _ => Some dims
  | _ => None
  end.

Definition task_args (e : event) : option ptr :=
  match e with
  | Call_add_task _ args _ _ _ => Some args
  | _ => None
  end.

Definition deref (m : machine) (p : ptr) : option (list (option Z)) :=
  match p with
  | Slot b => slots m !! b
  | Raw _ => None
  end.

(** The cell [k] of the slot behind [p]; [None] if there is no such cell or
    nothing was stored in it. *)
Definition cell (m : machine) (p : ptr) (k : nat) : option Z :=
  blk ← deref m p; mjoin (blk !! k).

(** The count that each submitted task finds in [dimensions[0]]. *)
Definition chunk_counts (m : machine) : list (option Z) :=
  (fun p => cell m p 0) <$> omap task_dims (events m).

(** A maker of slots that behaves like [alloca] followed by initialising
    stores: the new slot is the next one and starts as [blk0]. *)
Definition makes (mk_space : M nat) (blk0 : list (option Z)) : Prop :=
  forall m, mk_space m
            = Some (length (slots m),
                    Machine (slots m ++ [blk0]) (events m)).

(** The machine that a wrapper for [T] threads leaves: the dimension slots,
    then the argument slots, one task per thread and the three closing
    instructions. *)
Definition final (T : nat) (dims_slots args_slots : list (list (option Z)))
    (fn steps data : ptr) : machine :=
  Machine (dims_slots ++ args_slots)
    (((fun i => Call_add_task fn (Slot (T + i)) (Slot i) steps data)
        <$> seq 0 T)
     ++ [Call_ready; Call_synchronize; Ret_void]).

(** The uniform chunk size, the counts of the [T] chunks and the argument
    slot of thread [i], for a wrapper built for [T] threads and
    [nargs + 1] arrays. *)
Definition uniform_count (T : nat) (total : Z) : Z := total / Z.of_nat T.

Definition thread_counts (w : Z) (T : nat) (total : Z) : list Z :=
  replicate (T - 1) (uniform_count T total)
    ++ [remain_after w (uniform_count T total) (T - 1) total].

Definition thread_lanes (w : Z) (T nargs : nat) (args steps : array)
    (total : Z) (i : nat) : list (option Z) :=
  lane_cells w (cells args) (loaded_steps steps (nargs + 1))
    (uniform_count T total) i (seq 0 (nargs + 1))
    (replicate (nargs + 1) None).

Definition total_of (cs : list Z) : Z := foldr Z.add 0 cs.

Definition is_add_task (e : event) : bool :=
  match e with
  | Call_add_task _ _ _ _ _ => true
  | _ => false
  end.

(** The bytes of array [j] that task [i] of a run touches. *)
Definition task_bytes (w : Z) (itemsize : nat) (steps : array) (m : machine)
    (i j : nat) : option (list Z) :=
  pa ← omap task_args (events m) !! i;
  pd ← omap task_dims (events m) !! i;
  start ← cell m pa j;
  n ← cell m pd 0;
  step ← cells steps !! j;
  Some (chunk_bytes w itemsize start (Word.signed w step) (Word.signed w n)).

(** No two tasks of the run touch a common byte of array [j]. *)
Definition lane_disjoint (w : Z) (itemsize : nat) (steps : array)
    (m : machine) (j : nat) : Prop :=
  forall i i' bs bs' x,
    i <> i' ->
    task_bytes w itemsize steps m i j = Some bs ->
    task_bytes w itemsize steps m i' j = Some bs' ->
    x ∈ bs -> x ∉ bs'.

(** ** Concrete inputs

    A wrapper for two input arrays of eight-byte elements on a 64-bit machine,
    a generalized wrapper with two inner dimensions, and an environment for
    the start-up code. *)

Definition sample_args : array := Array 4096 [1000; 2000; 3000].
Definition sample_steps : array := Array 12288 [8; 8; 8].
Definition sample_dimensions : array := Array 8192 [10; 3; 5].

(** An input that is broadcast: its step is zero. *)
Definition broadcast_args : array := Array 4096 [1000; 2000].
Definition broadcast_steps : array := Array 12288 [0; 8].
Definition broadcast_dimensions : array := Array 8192 [4].

(** A reader of decimal digits, standing for Python's [int] on the strings
    used below. *)
Fixpoint decimal_digits (s : string) (acc : Z) : option Z :=
  match s with
  | EmptyString => Some acc
  | String c s' =>
      let n := Z.of_nat (Ascii.nat_of_ascii c) - 48 in
      if (0 <=? n) && (n <=? 9) then decimal_digits s' (10 * acc + n)
      else None
  end.

Definition decimal (s : string) : option Z :=
  match s with
  | EmptyString => None
  | _ => decimal_digits s 0
  end.

Definition workaround_on : gmap string string :=
  {["NUMBA_DYLD_WORKAROUND" := "1"]}.

Definition python34_darwin : Runtime.platform :=
  Runtime.Platform (3, 4)%nat "darwin" 64.

Definition python26_linux : Runtime.platform :=
  Runtime.Platform (2, 6)%nat "linux2" 64.

(** ** The builders

    [ParallelUFuncBuilder], [ParallelGUFuncBuilder] and the two wrapper
    builders.  The compiler objects they pass around ([cres], [library],
    [ctx]) come from other modules; of those only what decides the result
    appears here: the signature, the inner function that [ufuncbuilder]
    made, and the dtype numbers that NumPy assigns. *)

Module Types.

(** A Numba type as the builders look at it: its name and, for an array
    type, the type of its elements. *)
Inductive numba_type : Type :=
  | Scalar (name : string)
  | ArrayOf (name : string) (dtype : numba_type).

Definition name (a : numba_type) : string :=
  match a with
  | Scalar name => name
  | ArrayOf name _ => name
  end.

Record signature : Type := Signature {
  args : list numba_type;
  return_type : numba_type
}.

End Types.

(** A compiled wrapper, as what it does when it is called with [args],
    [dimensions], [steps] and [data]. *)
Definition wrapper : Type := array -> array -> array -> Z -> M unit.

(** [build_ufunc_wrapper]; [innerfunc] is the function made by
    [ufuncbuilder.build_ufunc_wrapper]. *)
Definition build_ufunc_wrapper (w : Z) (cpu_count : nat) (innerfunc : Z)
    (sig : Types.signature) : wrapper :=
  build_ufunc_kernel w (Runtime.NUM_CPU cpu_count)
    (length (Types.args sig)) innerfunc.

(** [set(sym for term in terms for sym in term)] *)
Definition symbols_of (terms : list (list string)) : gset string :=
  list_to_set (concat terms).

(** [inner_ndim = len(sym_in | sym_out)] *)
Definition inner_ndim (sin sout : list (list string)) : nat :=
  size (symbols_of sin ∪ symbols_of sout).

(** [build_gufunc_wrapper]; [innerfunc] is the function made by
    [ufuncbuilder.build_gufunc_wrapper]. *)
Definition build_gufunc_wrapper (w : Z) (cpu_count : nat) (innerfunc : Z)
    (sig : Types.signature) (sin sout : list (list string)) : wrapper :=
  build_gufunc_kernel w (Runtime.NUM_CPU cpu_count)
    (length (Types.args sig)) innerfunc (inner_ndim sin sout).

Module ParallelUFuncBuilder.

(** [build]: the process after the call and, unless a dtype lookup raised,
    the dtype numbers, the wrapper and the (empty) keep-alive tuple.
    [np_dtype_num] is [np.dtype(name).num]. *)
Definition build (w : Z) (cpu_count : nat)
    (np_dtype_num : string -> option nat) (innerfunc : Z)
    (sig : Types.signature) (wd : Runtime.world)
    : Runtime.world * option (list nat * wrapper * list Z) :=
  let wd := Runtime._launch_threads cpu_count wd in
  let wrapper := build_ufunc_wrapper w cpu_count innerfunc sig in
  (wd,
   dtypenums ← mapM (fun a => np_dtype_num (Types.name a)) (Types.args sig);
   num ← np_dtype_num (Types.name (Types.return_type sig));
   Some (dtypenums ++ [num], wrapper, [])).

End ParallelUFuncBuilder.

Module ParallelGUFuncBuilder.

(** The values of target options. *)
Inductive value : Type :=
  | Bool (b : bool)
  | Other (repr : string).

(** [__init__], on the dictionaries of the process, each under its
    identity: [targetoptions] is updated in place and then handed to the
    constructor of the base class.  A caller that leaves the argument out
    passes the one dictionary that the [def] statement made. *)
Definition __init__ (targetoptions : nat)
    (dicts : gmap nat (gmap string value))
    : option (gmap nat (gmap string value)) :=
  options ← dicts !! targetoptions;
  Some (<[targetoptions := <["nopython" := Bool true]> options]> dicts).

(** [build]; [as_dtype_num] is [as_dtype(ty).num]. *)
Definition build (w : Z) (cpu_count : nat)
    (as_dtype_num : Types.numba_type -> option nat) (innerfunc : Z)
    (sig : Types.signature) (sin sout : list (list string))
    (wd : Runtime.world)
    : Runtime.world * option (list nat * wrapper) :=
  let wd := Runtime._launch_threads cpu_count wd in
  let wrapper := build_gufunc_wrapper w cpu_count innerfunc sig sin sout in
  (wd,
   dtypenums ← mapM (fun a =>
                       let ty := match a with
                                 | Types.ArrayOf _ dtype => dtype
                                 | _ => a
                                 end in
                       as_dtype_num ty) (Types.args sig);
   Some (dtypenums, wrapper)).

End ParallelGUFuncBuilder.

(** The bytes of array [j] that the tasks of a run touch, task after task. *)
Definition all_task_bytes (w : Z) (itemsize : nat) (steps : array)
    (m : machine) (T j : nat) : option (list Z) :=
  @concat Z <$> mapM (fun i => task_bytes w itemsize steps m i j) (seq 0 T).

(** [n] wrappers built one after the other. *)
Definition builds (cpu_count n : nat) (wd : Runtime.world) : Runtime.world :=
  Nat.iter n (Runtime.build cpu_count) wd.

(** Inputs for the builders: a matrix product, [(m,n),(n,p)->(m,p)]. *)
Definition float64 : Types.numba_type := Types.Scalar "float64".
Definition matrix : Types.numba_type :=
  Types.ArrayOf "array(float64, 2d, C)" float64.
Definition add_signature : Types.signature :=
  Types.Signature [float64; float64] float64.
Definition matmul_signature : Types.signature :=
  Types.Signature [matrix; matrix; matrix] (Types.Scalar "none").
Definition matmul_sin : list (list string) := [["m"; "n"]; ["n"; "p"]].
Definition matmul_sout : list (list string) := [["m"; "p"]].
Definition dtype_table (name : string) : option nat :=
  if String.eqb name "float64" then Some 12%nat else None.

(** * Properties *)

(** ** Running the loops *)

Lemma bind_run {A B} (c : M A) (k : A -> M B) m a m' :
  c m = Some (a, m') -> bind c k m = k a m'.
Proof. intros H. unfold bind. now rewrite H. Qed.

Lemma lift_run {A} (o : option A) a m : o = Some a -> lift o m = Some (a, m).
Proof. now intros ->. Qed.

Lemma store_run b k v m blk :
  slots m !! b = Some blk -> (k < length blk)%nat ->
  store b k v m
  = Some (tt, Machine (<[b := <[k := Some v]> blk]> (slots m)) (events m)).
Proof.
  intros Hb Hk. unfold store. rewrite Hb.
  destruct (decide (k < length blk)%nat); [reflexivity | contradiction].
Qed.

Lemma alloca_makes n : makes (alloca n) (replicate n None).
Proof. intros m. reflexivity. Qed.

Lemma gufunc_space_makes (dimensions : array) (inner_ndim : nat) :
  (inner_ndim + 1 <= length (cells dimensions))%nat ->
  makes (gufunc_space dimensions inner_ndim)
        (Some <$> take (inner_ndim + 1) (cells dimensions)).
Proof.
  intros Hlen m. unfold gufunc_space.
  rewrite (bind_run _ _ _ _ _ (alloca_makes _ m)).
  unfold bind, memcpy, ret; cbn [slots events].
  rewrite lookup_app_r by lia.
  replace (length (slots m) - length (slots m))%nat with 0%nat by lia.
  cbn [lookup list_lookup]. rewrite length_replicate.
  destruct (decide (inner_ndim + 1 <= inner_ndim + 1)%nat); [| lia].
  destruct (decide (inner_ndim + 1 <= length (cells dimensions))%nat); [| lia].
  do 3 f_equal.
  rewrite drop_replicate, Nat.sub_diag. cbn [replicate].
  rewrite app_nil_r.
  replace (length (slots m)) with (length (slots m) + 0)%nat at 1 by lia.
  rewrite insert_app_r. reflexivity.
Qed.

Section Loops.

Variable w : Z.
Variable NUM_CPU : nat.

Lemma distribute_run mk_space blk0 count :
  makes mk_space blk0 -> (0 < length blk0)%nat ->
  forall range remain m,
    distribute w NUM_CPU mk_space count range remain m
    = Some ((seq (length (slots m)) (length range),
             (chunk_values w NUM_CPU count range remain).2),
            Machine (slots m
                     ++ ((fun c => <[0%nat := Some c]> blk0)
                           <$> (chunk_values w NUM_CPU count range remain).1))
                    (events m)).
Proof.
  intros Hmk Hlen range.
  induction range as [| i range IH]; intros remain m.
  - cbn. unfold ret. rewrite app_nil_r. now destruct m.
  - cbn [distribute chunk_values length seq].
    rewrite (bind_run _ _ _ _ _ (Hmk m)).
    assert (Hst : forall v,
               store (length (slots m)) 0 v
                 (Machine (slots m ++ [blk0]) (events m))
               = Some (tt, Machine (slots m ++ [<[0%nat := Some v]> blk0])
                                   (events m))).
    { intros v. erewrite store_run; cbn [slots events].
      - do 3 f_equal.
        replace (length (slots m)) with (length (slots m) + 0)%nat at 1
          by lia.
        rewrite insert_app_r. reflexivity.
      - rewrite lookup_app_r by lia.
        now replace (length (slots m) - length (slots m))%nat with 0%nat
          by lia.
      - exact Hlen. }
    destruct (decide (i = NUM_CPU - 1)%nat).
    + rewrite (bind_run _ _ _ _ _ (Hst remain)).
      rewrite (bind_run _ _ _ _ _ (IH _ _)).
      unfold ret; cbn [slots events fst snd].
      rewrite length_app; cbn [length].
      replace (length (slots m) + 1)%nat with (S (length (slots m))) by lia.
      rewrite fmap_cons, <- app_assoc. reflexivity.
    + rewrite (bind_run _ _ _ _ _ (Hst count)).
      rewrite (bind_run _ _ _ _ _ (IH _ _)).
      unfold ret; cbn [slots events fst snd].
      rewrite length_app; cbn [length].
      replace (length (slots m) + 1)%nat with (S (length (slots m))) by lia.
      rewrite fmap_cons, <- app_assoc. reflexivity.
Qed.

End Loops.

(** The slot that was allocated last. *)
Lemma lookup_last_slot {A} (l : list A) x : (l ++ [x]) !! length l = Some x.
Proof.
  rewrite lookup_app_r by lia.
  now replace (length l - length l)%nat with 0%nat by lia.
Qed.

Lemma insert_last_slot {A} (l : list A) x y :
  <[length l := y]> (l ++ [x]) = l ++ [y].
Proof.
  replace (length l) with (length l + 0)%nat by lia.
  now rewrite insert_app_r.
Qed.

Section LaneLoops.

Variable w : Z.
Variable NUM_CPU : nat.

Lemma load_steps_run (steps : array) range m :
  Forall (fun j => is_Some (cells steps !! j)) range ->
  load_steps steps range m
  = Some ((fun j => cells steps !!! j) <$> range, m).
Proof.
  induction 1 as [| j range [s Hs] _ IH]; [reflexivity |].
  cbn [load_steps]. unfold load.
  rewrite (bind_run _ _ _ _ _ (lift_run _ _ m Hs)).
  rewrite (bind_run _ _ _ _ _ IH). unfold ret.
  rewrite fmap_cons. do 3 f_equal.
  symmetry. now apply list_lookup_total_correct.
Qed.

Lemma lane_cells_length args steps_list count i range blk :
  length (lane_cells w args steps_list count i range blk) = length blk.
Proof.
  revert blk. induction range as [| j range IH]; intros blk; [reflexivity |].
  cbn [lane_cells]. now rewrite IH, length_insert.
Qed.

Lemma fill_lanes_run (args : array) steps_list count space i range :
  Forall (fun j => is_Some (cells args !! j) /\ is_Some (steps_list !! j))
         range ->
  forall m blk,
    slots m !! space = Some blk ->
    Forall (fun j => j < length blk)%nat range ->
    fill_lanes w args steps_list count space i range m
    = Some (tt, Machine
                  (<[space := lane_cells w (cells args) steps_list count i
                                range blk]> (slots m))
                  (events m)).
Proof.
  induction 1 as [| j range [[a Ha] [s Hs]] _ IH]; intros m blk Hb Hlt.
  - cbn. unfold ret. rewrite list_insert_id by exact Hb. now destruct m.
  - apply Forall_cons in Hlt as [Hj Hlt].
    cbn [fill_lanes lane_cells]. unfold load.
    rewrite (bind_run _ _ _ _ _ (lift_run _ _ m Ha)).
    rewrite (bind_run _ _ _ _ _ (lift_run _ _ m Hs)).
    rewrite (bind_run _ _ _ _ _ (store_run _ _ _ _ _ Hb Hj)).
    rewrite (list_lookup_total_correct _ _ _ Ha).
    rewrite (list_lookup_total_correct _ _ _ Hs).
    fold (subarray w a s count i).
    erewrite IH; cbn [slots events].
    + now rewrite list_insert_insert_eq.
    + apply list_lookup_insert_eq. now apply lookup_lt_Some in Hb.
    + eapply Forall_impl; [exact Hlt |]. intros k Hk.
      now rewrite length_insert.
Qed.

Lemma fill_args_run (args : array) steps_list count array_count :
  Forall (fun j => is_Some (cells args !! j) /\ is_Some (steps_list !! j))
         (seq 0 array_count) ->
  forall range m,
    fill_args w args steps_list count array_count range m
    = Some (seq (length (slots m)) (length range),
            Machine (slots m
                     ++ ((fun i => lane_cells w (cells args) steps_list
                                     count i (seq 0 array_count)
                                     (replicate array_count None))
                           <$> range))
                    (events m)).
Proof.
  intros Hin range. induction range as [| i range IH]; intros m.
  - cbn. unfold ret. rewrite app_nil_r. now destruct m.
  - cbn [fill_args length seq].
    rewrite (bind_run _ _ _ _ _ (alloca_makes _ m)).
    erewrite bind_run; cycle 1.
    { apply fill_lanes_run with (blk := replicate array_count None).
      - exact Hin.
      - cbn [slots]. apply lookup_last_slot.
      - rewrite length_replicate. apply Forall_forall.
        intros j Hj. apply elem_of_seq in Hj. lia. }
    cbn [slots events].
    rewrite (bind_run _ _ _ _ _ (IH _)). unfold ret; cbn [slots events].
    rewrite insert_last_slot.
    rewrite length_app; cbn [length].
    replace (length (slots m) + 1)%nat with (S (length (slots m))) by lia.
    rewrite fmap_cons, <- app_assoc. reflexivity.
Qed.

Lemma add_tasks_run innerfunc (steps : array) data pairs m :
  add_tasks innerfunc steps data pairs m
  = Some (tt, Machine (slots m)
                (events m
                 ++ ((fun p : nat * nat =>
                        Call_add_task (Raw innerfunc) (Slot p.1) (Slot p.2)
                          (Raw (addr steps)) (Raw data)) <$> pairs))).
Proof.
  revert m. induction pairs as [| [a d] pairs IH]; intros m.
  - cbn. unfold ret. rewrite app_nil_r. now destruct m.
  - cbn [add_tasks]. unfold bind at 1, emit at 1.
    rewrite IH; cbn [slots events fst snd].
    rewrite fmap_cons, <- app_assoc. reflexivity.
Qed.

End LaneLoops.

Section KernelRun.

Variable w : Z.
Variable NUM_CPU : nat.

Lemma chunk_values_length count range remain :
  length (chunk_values w NUM_CPU count range remain).1 = length range.
Proof.
  revert remain. induction range as [| i range IH]; intros remain.
  - reflexivity.
  - cbn [chunk_values]. destruct (decide (i = NUM_CPU - 1)%nat);
      cbn [fst length]; now rewrite IH.
Qed.

Lemma zip_seq_seq a b n :
  zip (seq a n) (seq b n) = (fun i => (a + i, b + i)%nat) <$> seq 0 n.
Proof.
  revert a b. induction n as [| n IH]; intros a b; [reflexivity |].
  cbn [seq zip zip_with fmap list_fmap]. rewrite IH.
  rewrite <- fmap_S_seq, <- list_fmap_compose.
  rewrite !Nat.add_0_r. f_equal.
  apply list_fmap_ext. intros _ i _. cbn. f_equal; lia.
Qed.

(** The whole wrapper, once: it runs to its [ret void] when the arrays it
    reads are long enough and the thread count is a nonzero [intp_t]
    constant, and this is the machine it leaves. *)
Lemma kernel_run mk_space blk0 array_count innerfunc
    (args dimensions steps : array) data total :
  makes mk_space blk0 -> (0 < length blk0)%nat ->
  cells dimensions !! 0%nat = Some total ->
  Word.const w (Z.of_nat NUM_CPU) <> 0 ->
  (array_count <= length (cells args))%nat ->
  (array_count <= length (cells steps))%nat ->
  let count := total / Word.const w (Z.of_nat NUM_CPU) in
  run (kernel w NUM_CPU mk_space array_count innerfunc args dimensions steps
         data)
  = Some (Machine
            (((fun c => <[0%nat := Some c]> blk0)
                <$> (chunk_values w NUM_CPU count (seq 0 NUM_CPU) total).1)
             ++ ((fun i => lane_cells w (cells args)
                             (loaded_steps steps array_count) count i
                             (seq 0 array_count)
                             (replicate array_count None))
                   <$> seq 0 NUM_CPU))
            (((fun i => Call_add_task (Raw innerfunc)
                          (Slot (NUM_CPU + i)) (Slot i)
                          (Raw (addr steps)) (Raw data))
                <$> seq 0 NUM_CPU)
             ++ [Call_ready; Call_synchronize; Ret_void])).
Proof.
  intros Hmk Hblk Htotal Hncpu Hargs Hsteps count.
  unfold run, kernel.
  unfold load at 1.
  rewrite (bind_run _ _ _ _ _ (lift_run _ _ _ Htotal)).
  assert (Hdiv : Word.udiv total (Word.const w (Z.of_nat NUM_CPU))
                 = Some count).
  { unfold Word.udiv. destruct (Z.eqb_spec (Word.const w (Z.of_nat NUM_CPU)) 0);
      [contradiction | reflexivity]. }
  rewrite (bind_run _ _ _ _ _ (lift_run _ _ _ Hdiv)).
  rewrite (bind_run _ _ _ _ _
             (distribute_run w NUM_CPU _ _ count Hmk Hblk _ _ _)).
  cbn [slots events fst snd length app].
  erewrite bind_run; cycle 1.
  { apply load_steps_run. apply Forall_forall. intros j Hj.
    apply elem_of_seq in Hj. apply lookup_lt_is_Some. lia. }
  fold (loaded_steps steps array_count).
  erewrite bind_run; cycle 1.
  { apply fill_args_run. apply Forall_forall. intros j Hj.
    apply elem_of_seq in Hj. split.
    - apply lookup_lt_is_Some. lia.
    - apply lookup_lt_is_Some. unfold loaded_steps.
      rewrite length_fmap, length_seq. lia. }
  cbn [slots events].
  rewrite length_fmap, chunk_values_length, !length_seq.
  unfold bind at 1. rewrite (add_tasks_run innerfunc steps data). cbn [slots events app].
  unfold bind, emit, ret; cbn [slots events fmap option_fmap option_map snd].
  rewrite zip_seq_seq, <- list_fmap_compose. do 2 f_equal.
  rewrite <- !app_assoc. cbn [app]. f_equal.
Qed.

End KernelRun.

(** ** The arithmetic of the partition *)

Section Arithmetic.

Variable w : Z.
Hypothesis w_pos : 0 < w.

Lemma modulus_pos : 0 < Word.modulus w.
Proof. unfold Word.modulus. apply Z.pow_pos_nonneg; lia. Qed.

Lemma modulus_half : Word.modulus w = 2 * 2 ^ (w - 1).
Proof.
  unfold Word.modulus. rewrite <- Z.pow_succ_r by lia. f_equal. lia.
Qed.

Lemma wrap_small z : 0 <= z < Word.modulus w -> Word.wrap w z = z.
Proof. intros H. unfold Word.wrap. now apply Z.mod_small. Qed.

Lemma wrap_range z : 0 <= Word.wrap w z < Word.modulus w.
Proof. unfold Word.wrap. apply Z.mod_pos_bound, modulus_pos. Qed.

Lemma signed_small z : 0 <= z < 2 ^ (w - 1) -> Word.signed w z = z.
Proof.
  intros H. unfold Word.signed.
  destruct (Z.ltb_spec z (2 ^ (w - 1))); [reflexivity | lia].
Qed.

Lemma wrap_signed z : Word.wrap w (Word.signed w z) = Word.wrap w z.
Proof.
  unfold Word.signed, Word.wrap.
  destruct (z <? 2 ^ (w - 1)); [reflexivity |].
  replace (z - Word.modulus w) with (z + (-1) * Word.modulus w) by lia.
  apply Z.mod_add. pose proof modulus_pos. lia.
Qed.

(** The pointer of a thread is the base plus step times count times thread
    index, as a machine address. *)
Lemma subarray_wrap base step count i :
  subarray w base step count i
  = Word.wrap w (base + step * count * Z.of_nat i).
Proof.
  unfold subarray, Word.add, Word.mul, Word.const, Word.wrap.
  rewrite Zmult_mod_idemp_r, Z.mul_assoc, Zmult_mod_idemp_r.
  rewrite Zplus_mod_idemp_r. reflexivity.
Qed.

Lemma subarray_signed base step count i :
  subarray w base step count i
  = Word.wrap w (base + Word.signed w step * count * Z.of_nat i).
Proof.
  rewrite subarray_wrap. unfold Word.wrap.
  rewrite <- (Zplus_mod_idemp_r (step * count * Z.of_nat i)).
  rewrite <- (Zplus_mod_idemp_r (Word.signed w step * count * Z.of_nat i)).
  f_equal. f_equal.
  rewrite <- !Z.mul_assoc.
  rewrite <- (Zmult_mod_idemp_l step).
  rewrite <- (Zmult_mod_idemp_l (Word.signed w step)).
  f_equal. f_equal. symmetry. apply wrap_signed.
Qed.

Variable NUM_CPU : nat.

Lemma chunk_values_app count range1 range2 remain :
  chunk_values w NUM_CPU count (range1 ++ range2) remain
  = let a := chunk_values w NUM_CPU count range1 remain in
    let b := chunk_values w NUM_CPU count range2 a.2 in
    (a.1 ++ b.1, b.2).
Proof.
  revert remain. induction range1 as [| i range1 IH]; intros remain.
  - cbn. now destruct (chunk_values _ _ _ _ _).
  - cbn [app chunk_values]. destruct (decide (i = NUM_CPU - 1)%nat);
      rewrite IH; reflexivity.
Qed.

Lemma chunk_values_uniform count n : forall i0 remain,
  (i0 + n <= NUM_CPU - 1)%nat ->
  chunk_values w NUM_CPU count (seq i0 n) remain
  = (replicate n count, remain_after w count n remain).
Proof.
  induction n as [| n IH]; intros i0 remain Hle; [reflexivity |].
  cbn [seq chunk_values remain_after].
  destruct (decide (i0 = NUM_CPU - 1)%nat); [lia |].
  rewrite IH by lia. reflexivity.
Qed.

(** All threads but the last get [count]; the last gets what remains. *)
Lemma chunk_values_all count total :
  (1 <= NUM_CPU)%nat ->
  chunk_values w NUM_CPU count (seq 0 NUM_CPU) total
  = (replicate (NUM_CPU - 1) count
       ++ [remain_after w count (NUM_CPU - 1) total],
     remain_after w count (NUM_CPU - 1) total).
Proof.
  intros Hpos.
  replace NUM_CPU with ((NUM_CPU - 1) + 1)%nat at 2 by lia.
  rewrite seq_app, chunk_values_app.
  rewrite chunk_values_uniform by lia.
  cbn [seq chunk_values fst snd Nat.add].
  destruct (decide (NUM_CPU - 1 = NUM_CPU - 1)%nat); [| contradiction].
  reflexivity.
Qed.

(** The subtraction never wraps while the exact difference is not
    negative. *)
Lemma remain_after_exact count k : forall remain,
  0 <= count ->
  0 <= remain - Z.of_nat k * count ->
  remain < Word.modulus w ->
  remain_after w count k remain = remain - Z.of_nat k * count.
Proof.
  induction k as [| k IH]; intros remain Hc Hlo Hhi.
  - cbn. lia.
  - cbn [remain_after]. unfold Word.sub.
    rewrite wrap_small by nia.
    rewrite IH by nia. lia.
Qed.

(** The thread count as an [intp_t] constant, and the quotient. *)
Lemma const_NUM_CPU :
  Z.of_nat NUM_CPU < Word.modulus w ->
  Word.const w (Z.of_nat NUM_CPU) = Z.of_nat NUM_CPU.
Proof. intros H. unfold Word.const. apply wrap_small. lia. Qed.

Lemma quotient_bounds total :
  (1 <= NUM_CPU)%nat -> 0 <= total ->
  0 <= total / Z.of_nat NUM_CPU
  /\ Z.of_nat NUM_CPU * (total / Z.of_nat NUM_CPU) <= total.
Proof.
  intros Hpos Htotal. split.
  - apply Z.div_pos; lia.
  - apply Z.mul_div_le. lia.
Qed.

Lemma remain_after_quotient total k :
  (1 <= NUM_CPU)%nat -> (k <= NUM_CPU)%nat ->
  0 <= total < Word.modulus w ->
  remain_after w (total / Z.of_nat NUM_CPU) k total
  = total - Z.of_nat k * (total / Z.of_nat NUM_CPU)
  /\ 0 <= total - Z.of_nat k * (total / Z.of_nat NUM_CPU) <= total.
Proof.
  intros Hpos Hk Htotal.
  destruct (quotient_bounds total Hpos) as [Hq Hmul]; [lia |].
  assert (0 <= total - Z.of_nat k * (total / Z.of_nat NUM_CPU)) by nia.
  split; [| nia].
  apply remain_after_exact; lia.
Qed.

End Arithmetic.

(** ** Reading the machine that a wrapper leaves *)

Section Views.

Variable w : Z.

Lemma lane_cells_notin args steps_list count i range : forall blk j,
  j ∉ range ->
  lane_cells w args steps_list count i range blk !! j = blk !! j.
Proof.
  induction range as [| j' range IH]; intros blk j Hj; [reflexivity |].
  apply not_elem_of_cons in Hj as [Hne Hj].
  cbn [lane_cells]. rewrite IH by exact Hj.
  apply list_lookup_insert_ne. congruence.
Qed.

Lemma lane_cells_in args steps_list count i range : forall blk j,
  j ∈ range -> (j < length blk)%nat ->
  lane_cells w args steps_list count i range blk !! j
  = Some (Some (subarray w (args !!! j) (steps_list !!! j) count i)).
Proof.
  induction range as [| j' range IH]; intros blk j Hj Hlt.
  - now apply elem_of_nil in Hj.
  - cbn [lane_cells]. destruct (decide (j ∈ range)) as [Hin | Hnotin].
    + apply IH; [exact Hin | now rewrite length_insert].
    + apply elem_of_cons in Hj as [-> | Hj]; [| contradiction].
      rewrite lane_cells_notin by exact Hnotin.
      now apply list_lookup_insert_eq.
Qed.

Lemma loaded_steps_lookup (steps : array) array_count j s :
  (j < array_count)%nat -> cells steps !! j = Some s ->
  loaded_steps steps array_count !!! j = s.
Proof.
  intros Hj Hs. apply list_lookup_total_correct.
  unfold loaded_steps. rewrite list_lookup_fmap, lookup_seq_lt by exact Hj.
  cbn. f_equal. now apply list_lookup_total_correct.
Qed.

Lemma omap_task_dims {A} (f a s : A -> ptr) (d : A -> nat) (u : A -> ptr)
    (l : list A) :
  omap task_dims
    ((fun i => Call_add_task (f i) (a i) (Slot (d i)) (s i) (u i)) <$> l)
  = (fun i => Slot (d i)) <$> l.
Proof. induction l as [| x l IH]; [reflexivity |]. cbn. now rewrite IH. Qed.

Lemma omap_task_args {A} (f : A -> ptr) (a : A -> nat) (d s u : A -> ptr)
    (l : list A) :
  omap task_args
    ((fun i => Call_add_task (f i) (Slot (a i)) (d i) (s i) (u i)) <$> l)
  = (fun i => Slot (a i)) <$> l.
Proof. induction l as [| x l IH]; [reflexivity |]. cbn. now rewrite IH. Qed.

Lemma final_task_dims T ds az fn steps data :
  omap task_dims (events (final T ds az fn steps data)) = Slot <$> seq 0 T.
Proof.
  unfold final; cbn [events]. rewrite omap_app.
  rewrite (omap_task_dims (fun _ => fn) (fun i => Slot (T + i))
             (fun _ => steps) (fun i => i) (fun _ => data)).
  cbn. now rewrite app_nil_r.
Qed.

Lemma final_task_args T ds az fn steps data :
  omap task_args (events (final T ds az fn steps data))
  = (fun i => Slot (T + i)) <$> seq 0 T.
Proof.
  unfold final; cbn [events]. rewrite omap_app.
  rewrite (omap_task_args (fun _ => fn) (fun i => (T + i)%nat)
             (fun i => Slot i) (fun _ => steps) (fun _ => data)).
  cbn. now rewrite app_nil_r.
Qed.

Lemma final_dims_slot T ds az fn steps data i :
  (i < length ds)%nat ->
  deref (final T ds az fn steps data) (Slot i) = ds !! i.
Proof. intros Hi. cbn. now apply lookup_app_l. Qed.

Lemma final_args_slot T ds az fn steps data i :
  length ds = T ->
  deref (final T ds az fn steps data) (Slot (T + i)) = az !! i.
Proof.
  intros Hlen. cbn. rewrite lookup_app_r by lia. f_equal. lia.
Qed.

(** The counts that the tasks find, when every dimension slot was made from
    [blk0] and got its count in cell 0. *)
Lemma final_chunk_counts T blk0 cs az fn steps data :
  length cs = T -> (0 < length blk0)%nat ->
  chunk_counts
    (final T ((fun c => <[0%nat := Some c]> blk0) <$> cs) az fn steps data)
  = Some <$> cs.
Proof.
  intros Hlen Hblk. unfold chunk_counts. rewrite final_task_dims.
  apply list_eq. intros i. rewrite !list_lookup_fmap.
  destruct (decide (i < T)%nat) as [Hi | Hi].
  - rewrite lookup_seq_lt by exact Hi.
    cbn [fmap option_fmap option_map Nat.add].
    unfold cell. rewrite final_dims_slot
      by (rewrite length_fmap; lia).
    rewrite list_lookup_fmap.
    destruct (cs !! i) as [c |] eqn:Hc.
    + cbn. now rewrite list_lookup_insert_eq.
    + apply lookup_ge_None in Hc. lia.
  - rewrite lookup_seq_ge by lia. cbn.
    rewrite (proj2 (lookup_ge_None cs i)) by lia. reflexivity.
Qed.

End Views.

(** ** Addresses of different elements *)

Section Collisions.

Variable w : Z.
Hypothesis w_pos : 0 < w.

Lemma wrap_eq_multiple a b :
  Word.wrap w a = Word.wrap w b -> exists z, a - b = z * Word.modulus w.
Proof.
  unfold Word.wrap. intros H.
  exists (a / Word.modulus w - b / Word.modulus w).
  pose proof (modulus_pos w w_pos) as Hm.
  pose proof (Z.div_mod a (Word.modulus w)) as Ha.
  pose proof (Z.div_mod b (Word.modulus w)) as Hb.
  nia.
Qed.

Lemma multiple_small z d :
  d = z * Word.modulus w -> - Word.modulus w < d < Word.modulus w -> d = 0.
Proof.
  intros -> H. pose proof (modulus_pos w w_pos) as Hm.
  assert (z = 0) by nia. subst. lia.
Qed.

(** Two bytes of two different elements of one array are at different
    addresses, when the elements do not overlap and the array fits the
    address space. *)
Lemma element_bytes_differ base step total e e' b b' itemsize :
  step <> 0 ->
  itemsize <= Z.abs step ->
  Z.abs step * total <= Word.modulus w ->
  0 <= e < e' -> e' < total ->
  0 <= b < itemsize -> 0 <= b' < itemsize ->
  Word.wrap w (base + step * e + b) <> Word.wrap w (base + step * e' + b').
Proof.
  intros Hstep Hsize Hfit He He' Hb Hb' Heq.
  apply wrap_eq_multiple in Heq as [z Hz].
  assert (Hd : base + step * e + b - (base + step * e' + b')
               = step * (e - e') + (b - b')) by lia.
  rewrite Hd in Hz.
  apply multiple_small in Hz.
  - destruct (Z.abs_spec step) as [[Hs Ha] | [Hs Ha]]; rewrite Ha in *; nia.
  - destruct (Z.abs_spec step) as [[Hs Ha] | [Hs Ha]]; rewrite Ha in *; nia.
Qed.

Lemma elem_of_chunk_bytes itemsize start step n x :
  x ∈ chunk_bytes w itemsize start step n
  <-> exists k b : nat,
        (k < Z.to_nat n)%nat /\ (b < itemsize)%nat
        /\ x = Word.wrap w (start + step * Z.of_nat k + Z.of_nat b).
Proof.
  unfold chunk_bytes. rewrite list_elem_of_bind. split.
  - intros (k & Hx & Hk). apply list_elem_of_fmap in Hx as (b & -> & Hb).
    apply elem_of_seq in Hk, Hb. exists k, b. repeat split; lia.
  - intros (k & b & Hk & Hb & ->). exists k. split.
    + apply list_elem_of_fmap. exists b. split; [reflexivity |].
      apply elem_of_seq. lia.
    + apply elem_of_seq. lia.
Qed.

(** The byte [b] of element [k] of thread [i] is the byte [b] of element
    [count * i + k] of the array. *)
Lemma thread_byte_address base step count i k b :
  Word.wrap w (subarray w base step count i
               + Word.signed w step * Z.of_nat k + Z.of_nat b)
  = Word.wrap w (base
                 + Word.signed w step * (count * Z.of_nat i + Z.of_nat k)
                 + Z.of_nat b).
Proof.
  rewrite (subarray_signed w w_pos). unfold Word.wrap.
  rewrite <- Z.add_assoc, Zplus_mod_idemp_l. f_equal. lia.
Qed.

End Collisions.

(** ** Properties of the dispatcher *)

Lemma total_of_app cs1 cs2 : total_of (cs1 ++ cs2) = total_of cs1 + total_of cs2.
Proof.
  induction cs1 as [| c cs1 IH]; [reflexivity |].
  unfold total_of in *. cbn [app foldr] in *. lia.
Qed.

Lemma total_of_replicate n c : total_of (replicate n c) = Z.of_nat n * c.
Proof.
  induction n as [| n IH]; [reflexivity |].
  unfold total_of in *. cbn [replicate foldr] in *. lia.
Qed.

Section Wrapper.

Variable w : Z.
Hypothesis w_pos : 0 < w.

Variable T : nat.
Hypothesis T_pos : (1 <= T)%nat.
Hypothesis T_fits : Z.of_nat T < Word.modulus w.

Variables (nargs : nat) (innerfunc : Z).
Variables (args dimensions steps : array) (data total : Z).

Hypothesis total_first : cells dimensions !! 0%nat = Some total.
Hypothesis args_long : (nargs + 1 <= length (cells args))%nat.
Hypothesis steps_long : (nargs + 1 <= length (cells steps))%nat.

Local Abbreviation quotient := (uniform_count T total).
Local Abbreviation counts := (thread_counts w T total).
Local Abbreviation lanes := (thread_lanes w T nargs args steps total).

Lemma kernel_final mk_space blk0 :
  makes mk_space blk0 -> (0 < length blk0)%nat ->
  run (kernel w T mk_space (nargs + 1) innerfunc args dimensions steps data)
  = Some (final T ((fun c => <[0%nat := Some c]> blk0) <$> counts)
            (lanes <$> seq 0 T)
            (Raw innerfunc) (Raw (addr steps)) (Raw data)).
Proof.
  intros Hmk Hblk.
  erewrite kernel_run; try eassumption.
  - rewrite (const_NUM_CPU w T T_fits).
    rewrite chunk_values_all by exact T_pos. reflexivity.
  - rewrite (const_NUM_CPU w T T_fits). lia.
Qed.

Lemma counts_length : length counts = T.
Proof.
  unfold counts. rewrite length_app, length_replicate. cbn [length]. lia.
Qed.

Lemma ufunc_final :
  run (build_ufunc_kernel w T nargs innerfunc args dimensions steps data)
  = Some (final T ((fun c => [Some c]) <$> counts) (lanes <$> seq 0 T)
            (Raw innerfunc) (Raw (addr steps)) (Raw data)).
Proof.
  unfold build_ufunc_kernel.
  rewrite (kernel_final (alloca 1) (replicate 1 None));
    [reflexivity | apply alloca_makes | cbn; lia].
Qed.

Lemma gufunc_final inner_ndim :
  (inner_ndim + 1 <= length (cells dimensions))%nat ->
  run (build_gufunc_kernel w T nargs innerfunc inner_ndim args dimensions
         steps data)
  = Some (final T
            ((fun c => <[0%nat := Some c]>
                         (Some <$> take (inner_ndim + 1) (cells dimensions)))
               <$> counts)
            (lanes <$> seq 0 T)
            (Raw innerfunc) (Raw (addr steps)) (Raw data)).
Proof.
  intros Hlen. unfold build_gufunc_kernel.
  apply kernel_final.
  - now apply gufunc_space_makes.
  - rewrite length_fmap, length_take. lia.
Qed.

Lemma counts_exact :
  0 <= total < Word.modulus w ->
  counts = replicate (T - 1) quotient
             ++ [total - Z.of_nat (T - 1) * quotient].
Proof.
  intros Htotal. unfold counts. do 2 f_equal.
  apply (remain_after_quotient w T total (T - 1)); [exact T_pos | lia | lia].
Qed.

(** C1: for every total >= 0 and every thread count T >= 1 (both within the
    range of [intp_t]), the wrapper runs to its end and the counts that its T
    tasks find sum exactly to total, each count is >= 0 as a signed number,
    the first T-1 counts all equal floor(total/T) and the last is the
    remainder total - (T-1) * floor(total/T). *)
Theorem chunk_counts_partition :
  0 <= total < 2 ^ (w - 1) ->
  exists m cs,
    run (build_ufunc_kernel w T nargs innerfunc args dimensions steps data)
    = Some m
    /\ chunk_counts m = Some <$> cs
    /\ length cs = T
    /\ total_of cs = total
    /\ Forall (fun c => 0 <= Word.signed w c) cs
    /\ (forall i, (i < T - 1)%nat -> cs !! i = Some (total / Z.of_nat T))
    /\ cs !! (T - 1)%nat
       = Some (total - Z.of_nat (T - 1) * (total / Z.of_nat T)).
Proof.
  intros Htotal.
  pose proof (modulus_half w w_pos) as Hhalf.
  assert (Hw : 0 <= total < Word.modulus w) by lia.
  destruct (remain_after_quotient w T total (T - 1)) as [_ Hrem];
    [exact T_pos | lia | exact Hw |].
  destruct (quotient_bounds T total T_pos) as [Hq Hmul]; [lia |].
  fold quotient in Hrem, Hq, Hmul |- *.
  exists (final T ((fun c => [Some c]) <$> counts) (lanes <$> seq 0 T)
            (Raw innerfunc) (Raw (addr steps)) (Raw data)), counts.
  split; [apply ufunc_final |].
  split; [apply (final_chunk_counts T (replicate 1 None)); [apply counts_length | cbn; lia] |].
  split; [apply counts_length |].
  rewrite counts_exact by exact Hw.
  split; [| split; [| split]].
  - rewrite total_of_app, total_of_replicate. unfold total_of. cbn [foldr]. lia.
  - apply Forall_app. split.
    + apply Forall_replicate. rewrite signed_small by nia. exact Hq.
    + apply Forall_singleton. rewrite signed_small by lia. lia.
  - intros i Hi. rewrite lookup_app_l by (rewrite length_replicate; lia).
    now apply lookup_replicate_2.
  - rewrite lookup_app_r by (rewrite length_replicate; lia).
    rewrite length_replicate, Nat.sub_diag. reflexivity.
Qed.

Lemma final_lane_cell ds i j base step :
  length ds = T -> (i < T)%nat -> (j < nargs + 1)%nat ->
  cells args !! j = Some base -> cells steps !! j = Some step ->
  cell (final T ds (lanes <$> seq 0 T)
          (Raw innerfunc) (Raw (addr steps)) (Raw data))
       (Slot (T + i)) j
  = Some (subarray w base step quotient i).
Proof.
  intros Hds Hi Hj Hbase Hstep. unfold cell.
  rewrite final_args_slot by exact Hds.
  rewrite list_lookup_fmap, lookup_seq_lt by exact Hi.
  cbn [fmap option_fmap option_map mbind option_bind Nat.add].
  unfold thread_lanes. rewrite lane_cells_in.
  - cbn [mjoin option_join]. do 2 f_equal.
    + now apply list_lookup_total_correct.
    + now apply loaded_steps_lookup.
  - apply elem_of_seq. lia.
  - rewrite length_replicate. lia.
Qed.

(** C2: for every lane j of the nargs + 1 lanes and every chunk i in 0..T-1,
    the pointer stored for lane j in the argument slot of task i is the
    machine address base + steps[j] * count * i, where base is the caller's
    pointer for the lane and count is the uniform chunk size floor(total/T);
    this holds for the last chunk as for the others, and reading the step as
    a signed number gives the same address. *)
Theorem chunk_base_pointers :
  exists m,
    run (build_ufunc_kernel w T nargs innerfunc args dimensions steps data)
    = Some m
    /\ forall i j, (i < T)%nat -> (j < nargs + 1)%nat ->
       exists p base step,
         omap task_args (events m) !! i = Some p
         /\ cells args !! j = Some base
         /\ cells steps !! j = Some step
         /\ cell m p j
            = Some (Word.wrap w
                      (base + step * (total / Z.of_nat T) * Z.of_nat i))
         /\ cell m p j
            = Some (Word.wrap w
                      (base + Word.signed w step * (total / Z.of_nat T)
                              * Z.of_nat i)).
Proof.
  eexists. split; [apply ufunc_final |].
  intros i j Hi Hj.
  destruct (lookup_lt_is_Some_2 (cells args) j) as [base Hbase]; [lia |].
  destruct (lookup_lt_is_Some_2 (cells steps) j) as [step Hstep]; [lia |].
  exists (Slot (T + i)), base, step.
  split.
  { rewrite final_task_args, list_lookup_fmap, lookup_seq_lt by exact Hi.
    reflexivity. }
  do 2 (split; [assumption |]).
  rewrite (final_lane_cell _ i j base step);
    [| rewrite length_fmap; apply counts_length | assumption ..].
  split.
  - now rewrite subarray_wrap.
  - now rewrite subarray_signed.
Qed.

Lemma final_events_shape ds az fn s u :
  exists tasks,
    events (final T ds az fn s u)
    = tasks ++ [Call_ready; Call_synchronize; Ret_void]
    /\ length tasks = T
    /\ Forall (fun e => is_add_task e = true) tasks.
Proof.
  eexists. split; [reflexivity |]. split.
  - now rewrite length_fmap, length_seq.
  - apply Forall_fmap, Forall_forall. intros i _. reflexivity.
Qed.

(** C7: in the wrapper of either variant, exactly T tasks are submitted (one
    per chunk, whatever its count), all of them before the single call to
    numba_ready, which comes before the single call to numba_synchronize,
    after which the wrapper returns: the instructions that the run executes
    are T calls of numba_add_task, then numba_ready, numba_synchronize and
    ret void, and nothing else. *)
Theorem submissions_before_ready_before_synchronize inner_ndim c :
  (inner_ndim + 1 <= length (cells dimensions))%nat ->
  c = build_ufunc_kernel w T nargs innerfunc args dimensions steps data
  \/ c = build_gufunc_kernel w T nargs innerfunc inner_ndim args dimensions
           steps data ->
  exists m tasks,
    run c = Some m
    /\ events m = tasks ++ [Call_ready; Call_synchronize; Ret_void]
    /\ length tasks = T
    /\ Forall (fun e => is_add_task e = true) tasks.
Proof.
  intros Hlen [-> | ->].
  - rewrite ufunc_final.
    destruct (final_events_shape ((fun c => [Some c]) <$> counts)
                (lanes <$> seq 0 T) (Raw innerfunc) (Raw (addr steps))
                (Raw data)) as (tasks & H).
    eauto.
  - rewrite gufunc_final by exact Hlen.
    match goal with
    | |- context [Some (final T ?ds ?az ?fn ?s ?u)] =>
        destruct (final_events_shape ds az fn s u) as (tasks & H)
    end.
    eauto.
Qed.

Lemma final_shared ds az fn s u :
  (forall fn' a' d' s' u',
      Call_add_task fn' a' d' s' u' ∈ events (final T ds az fn s u) ->
      fn' = fn /\ s' = s /\ u' = u)
  /\ NoDup (omap task_args (events (final T ds az fn s u))
            ++ omap task_dims (events (final T ds az fn s u)))
  /\ length (omap task_args (events (final T ds az fn s u))) = T.
Proof.
  split; [| split].
  - intros fn' a' d' s' u' Hin. unfold final in Hin; cbn [events] in Hin.
    apply elem_of_app in Hin as [Hin | Hin].
    + apply list_elem_of_fmap in Hin as (i & Heq & _).
      now inversion Heq.
    + repeat (apply elem_of_cons in Hin as [Hin | Hin]; [discriminate |]).
      now apply elem_of_nil in Hin.
  - rewrite final_task_args, final_task_dims.
    apply NoDup_app. split; [| split].
    + apply NoDup_fmap_2; [| apply NoDup_seq].
      intros a b Hab. injection Hab. lia.
    + intros p Hp Hq.
      apply list_elem_of_fmap in Hp as (i & -> & _).
      apply list_elem_of_fmap in Hq as (i' & Heq & Hi').
      apply elem_of_seq in Hi'. injection Heq. lia.
    + apply NoDup_fmap_2; [| apply NoDup_seq].
      intros a b Hab. now injection Hab.
  - now rewrite final_task_args, length_fmap, length_seq.
Qed.

(** C10: in both variants, every task submitted in one run of the wrapper
    gets the inner function, the very steps pointer and the very user-data
    pointer that the wrapper was called with; the argument slots and the
    dimension slots of the T tasks are 2 * T different stack slots. *)
Theorem tasks_share_steps_and_data inner_ndim c :
  (inner_ndim + 1 <= length (cells dimensions))%nat ->
  c = build_ufunc_kernel w T nargs innerfunc args dimensions steps data
  \/ c = build_gufunc_kernel w T nargs innerfunc inner_ndim args dimensions
           steps data ->
  exists m,
    run c = Some m
    /\ (forall fn' a' d' s' u',
           Call_add_task fn' a' d' s' u' ∈ events m ->
           fn' = Raw innerfunc /\ s' = Raw (addr steps) /\ u' = Raw data)
    /\ NoDup (omap task_args (events m) ++ omap task_dims (events m))
    /\ length (omap task_args (events m)) = T.
Proof.
  intros Hlen [-> | ->].
  - rewrite ufunc_final. eexists. split; [reflexivity |].
    apply final_shared.
  - rewrite gufunc_final by exact Hlen. eexists. split; [reflexivity |].
    apply final_shared.
Qed.

(** C4: in the generalized variant, for every inner dimensionality and every
    chunk, the dimension slot of the chunk's task has inner_ndim + 1 entries;
    entries 1..inner_ndim are those of the caller's dimensions array, word for
    word; entry 0 is the chunk's count, and the counts are those of the
    elementwise wrapper on the same total. *)
Theorem gufunc_inner_dimensions inner_ndim :
  (inner_ndim + 1 <= length (cells dimensions))%nat ->
  exists m mu,
    run (build_gufunc_kernel w T nargs innerfunc inner_ndim args dimensions
           steps data) = Some m
    /\ run (build_ufunc_kernel w T nargs innerfunc args dimensions steps data)
       = Some mu
    /\ chunk_counts m = chunk_counts mu
    /\ forall i, (i < T)%nat ->
       exists p blk c,
         omap task_dims (events m) !! i = Some p
         /\ deref m p = Some blk
         /\ length blk = (inner_ndim + 1)%nat
         /\ (forall k, (1 <= k <= inner_ndim)%nat ->
               exists d, cells dimensions !! k = Some d
                         /\ blk !! k = Some (Some d))
         /\ blk !! 0%nat = Some (Some c)
         /\ chunk_counts mu !! i = Some (Some c).
Proof.
  intros Hlen.
  pose proof counts_length as Hcs.
  set (blk0 := Some <$> take (inner_ndim + 1) (cells dimensions)).
  assert (Hblk0 : length blk0 = (inner_ndim + 1)%nat).
  { unfold blk0. rewrite length_fmap, length_take. lia. }
  eexists. eexists.
  split; [apply gufunc_final; exact Hlen |].
  split; [apply ufunc_final |].
  fold blk0.
  rewrite (final_chunk_counts T blk0) by (assumption || lia).
  rewrite (final_chunk_counts T (replicate 1 None)) by (assumption || cbn; lia).
  split; [reflexivity |].
  intros i Hi.
  destruct (lookup_lt_is_Some_2 counts i) as [c Hc]; [lia |].
  exists (Slot i), (<[0%nat := Some c]> blk0), c.
  split.
  { rewrite final_task_dims, list_lookup_fmap, lookup_seq_lt by exact Hi.
    reflexivity. }
  split.
  { rewrite final_dims_slot by (rewrite length_fmap; lia).
    rewrite list_lookup_fmap, Hc. reflexivity. }
  split; [now rewrite length_insert |].
  split; [| split].
  - intros k Hk.
    destruct (lookup_lt_is_Some_2 (cells dimensions) k) as [d Hd]; [lia |].
    exists d. split; [exact Hd |].
    rewrite list_lookup_insert_ne by lia.
    unfold blk0. rewrite list_lookup_fmap, lookup_take_lt by lia.
    now rewrite Hd.
  - apply list_lookup_insert_eq. lia.
  - rewrite list_lookup_fmap, Hc. reflexivity.
Qed.

(** C5: when 0 <= total < T, the uniform chunk size is 0, chunks 0..T-2 each
    get count 0 and the last chunk gets total; at every pass of the loop that
    subtracts, the running remainder is total, the subtraction (made on
    [intp_t], the type of the count) gives the exact difference, and that
    difference is not negative. *)
Theorem small_total_counts :
  Z.of_nat T <= 2 ^ (w - 1) ->
  0 <= total < Z.of_nat T ->
  Word.udiv total (Word.const w (Z.of_nat T)) = Some 0
  /\ (exists m,
         run (build_ufunc_kernel w T nargs innerfunc args dimensions steps
                data) = Some m
         /\ chunk_counts m = Some <$> (replicate (T - 1) 0 ++ [total]))
  /\ forall k, (k < T - 1)%nat ->
       exists spaces remain m',
         distribute w T (alloca 1) 0 (seq 0 k) total (Machine [] [])
         = Some ((spaces, remain), m')
         /\ remain = total
         /\ Word.sub w remain 0 = remain - 0
         /\ 0 <= Word.signed w (Word.sub w remain 0).
Proof.
  intros Hhalf Htotal.
  pose proof (modulus_half w w_pos) as Hmod.
  assert (Hq : quotient = 0) by (apply Z.div_small; lia).
  assert (Hw : 0 <= total < Word.modulus w) by lia.
  split; [| split].
  - unfold Word.udiv. rewrite (const_NUM_CPU w T T_fits).
    destruct (Z.eqb_spec (Z.of_nat T) 0); [lia |].
    f_equal. exact Hq.
  - eexists. split; [apply ufunc_final |].
    rewrite (final_chunk_counts T (replicate 1 None))
      by (apply counts_length || cbn; lia).
    rewrite counts_exact by exact Hw. rewrite Hq.
    do 3 f_equal. lia.
  - intros k Hk.
    rewrite (distribute_run w T (alloca 1) (replicate 1 None) 0
               (alloca_makes 1)) by (cbn; lia).
    rewrite chunk_values_uniform by lia.
    cbn [fst snd].
    assert (Hrem : remain_after w 0 k total = total).
    { rewrite remain_after_exact by lia. lia. }
    rewrite Hrem.
    do 3 eexists. split; [reflexivity |].
    split; [reflexivity |].
    unfold Word.sub. rewrite wrap_small by lia.
    split; [reflexivity |].
    rewrite signed_small by lia. lia.
Qed.

Lemma counts_lookup i c :
  0 <= total < Word.modulus w ->
  counts !! i = Some c ->
  (i < T - 1)%nat /\ c = quotient
  \/ i = (T - 1)%nat /\ c = total - Z.of_nat (T - 1) * quotient.
Proof.
  intros Htotal. rewrite counts_exact by exact Htotal.
  rewrite lookup_app_Some, length_replicate. intros [H | [Hge H]].
  - apply lookup_replicate in H as [-> Hi]. now left.
  - apply list_lookup_singleton_Some in H as [Hi <-]. right. split; lia.
Qed.

(** Chunk [i] is the elements [count * i .. count * i + c - 1] of the array,
    so an element of an earlier chunk comes before every element of a later
    one, and all of them are below [total]. *)
Lemma chunk_index_order i i' c c' k k' :
  0 <= total < Word.modulus w ->
  (i < i')%nat ->
  counts !! i = Some c -> counts !! i' = Some c' ->
  0 <= k < c -> 0 <= k' < c' ->
  0 <= quotient * Z.of_nat i + k < quotient * Z.of_nat i' + k'
  /\ quotient * Z.of_nat i' + k' < total.
Proof.
  intros Htotal Hlt Hc Hc' Hk Hk'.
  destruct (quotient_bounds T total T_pos) as [Hq Hmul]; [lia |].
  fold quotient in Hq, Hmul.
  pose proof (lookup_lt_Some _ _ _ Hc') as Hi'. rewrite counts_length in Hi'.
  apply counts_lookup in Hc as [[Hi ->] | [Hi ->]]; [| lia | exact Htotal].
  apply counts_lookup in Hc' as [[Hi2 ->] | [Hi2 ->]]; [| | exact Htotal].
  - assert (Z.of_nat i + 1 <= Z.of_nat i') by lia.
    assert (Z.of_nat i' + 1 <= Z.of_nat T) by lia.
    nia.
  - assert (Z.of_nat i + 1 <= Z.of_nat i') by lia.
    subst i'. nia.
Qed.

Lemma task_bytes_final itemsize i j base step c :
  (i < T)%nat -> (j < nargs + 1)%nat ->
  cells args !! j = Some base -> cells steps !! j = Some step ->
  counts !! i = Some c ->
  task_bytes w itemsize steps
    (final T ((fun c => [Some c]) <$> counts) (lanes <$> seq 0 T)
       (Raw innerfunc) (Raw (addr steps)) (Raw data)) i j
  = Some (chunk_bytes w itemsize (subarray w base step quotient i)
            (Word.signed w step) (Word.signed w c)).
Proof.
  intros Hi Hj Hbase Hstep Hc. unfold task_bytes.
  rewrite final_task_args, final_task_dims, !list_lookup_fmap.
  rewrite lookup_seq_lt by exact Hi.
  cbn [fmap option_fmap option_map mbind option_bind Nat.add].
  rewrite (final_lane_cell _ i j base step);
    [| rewrite length_fmap; apply counts_length | assumption ..].
  cbn [mbind option_bind].
  unfold cell at 1.
  rewrite final_dims_slot by (rewrite length_fmap, counts_length; exact Hi).
  rewrite list_lookup_fmap, Hc. cbn. now rewrite Hstep.
Qed.

Lemma task_bytes_final_None itemsize i j :
  (T <= i)%nat ->
  task_bytes w itemsize steps
    (final T ((fun c => [Some c]) <$> counts) (lanes <$> seq 0 T)
       (Raw innerfunc) (Raw (addr steps)) (Raw data)) i j
  = None.
Proof.
  intros Hi. unfold task_bytes.
  rewrite final_task_args, list_lookup_fmap, lookup_seq_ge by lia.
  reflexivity.
Qed.

Lemma earlier_chunk_apart itemsize j base step i i' c c' x :
  0 <= total < 2 ^ (w - 1) ->
  cells steps !! j = Some step ->
  Word.signed w step <> 0 ->
  Z.of_nat itemsize <= Z.abs (Word.signed w step) ->
  Z.abs (Word.signed w step) * total <= Word.modulus w ->
  (i < i')%nat ->
  counts !! i = Some c -> counts !! i' = Some c' ->
  x ∈ chunk_bytes w itemsize (subarray w base step quotient i)
        (Word.signed w step) (Word.signed w c) ->
  x ∈ chunk_bytes w itemsize (subarray w base step quotient i')
        (Word.signed w step) (Word.signed w c') ->
  False.
Proof.
  intros Htotal Hstep Hnz Hsize Hfit Hlt Hc Hc' Hx Hx'.
  pose proof (modulus_half w w_pos) as Hmod.
  assert (Hw : 0 <= total < Word.modulus w) by lia.
  assert (Hsigned : forall i c, counts !! i = Some c ->
                                Word.signed w c = c /\ 0 <= c).
  { intros i0 c0 H0.
    destruct (quotient_bounds T total T_pos) as [Hq Hmul]; [lia |].
    fold quotient in Hq, Hmul.
    apply counts_lookup in H0 as [[_ ->] | [_ ->]]; [| | exact Hw].
    - split; [apply signed_small; nia | lia].
    - destruct (remain_after_quotient w T total (T - 1)) as [_ Hr];
        [exact T_pos | lia | exact Hw |].
      fold quotient in Hr. split; [apply signed_small; lia | lia]. }
  destruct (Hsigned _ _ Hc) as [Hsc Hc0].
  destruct (Hsigned _ _ Hc') as [Hsc' Hc0'].
  rewrite Hsc in Hx. rewrite Hsc' in Hx'.
  apply elem_of_chunk_bytes in Hx as (k & b & Hk & Hb & Hxe).
  apply elem_of_chunk_bytes in Hx' as (k' & b' & Hk' & Hb' & Hxe').
  rewrite (thread_byte_address w w_pos) in Hxe, Hxe'.
  destruct (chunk_index_order i i' c c' (Z.of_nat k) (Z.of_nat k'))
    as [He He']; [exact Hw | exact Hlt | exact Hc | exact Hc' | lia | lia |].
  eapply (element_bytes_differ w w_pos base (Word.signed w step) total
            _ _ (Z.of_nat b) (Z.of_nat b') (Z.of_nat itemsize));
    [exact Hnz | exact Hsize | exact Hfit | exact He | exact He' | lia | lia |].
  now rewrite <- Hxe, <- Hxe'.
Qed.

(** C6 (amended): for every lane whose byte step is not zero, with elements no
    larger than the step and the array within the address space (|step| *
    total <= 2^w), and for every total >= 0 and T >= 1, no byte of the lane is
    touched by two different tasks of the run. *)
Theorem chunk_bytes_disjoint itemsize j step :
  0 <= total < 2 ^ (w - 1) ->
  (j < nargs + 1)%nat ->
  cells steps !! j = Some step ->
  Word.signed w step <> 0 ->
  Z.of_nat itemsize <= Z.abs (Word.signed w step) ->
  Z.abs (Word.signed w step) * total <= Word.modulus w ->
  exists m,
    run (build_ufunc_kernel w T nargs innerfunc args dimensions steps data)
    = Some m
    /\ lane_disjoint w itemsize steps m j.
Proof.
  intros Htotal Hj Hstep Hnz Hsize Hfit.
  eexists. split; [apply ufunc_final |].
  destruct (lookup_lt_is_Some_2 (cells args) j) as [base Hbase]; [lia |].
  assert (Hbytes : forall i bs,
            task_bytes w itemsize steps
              (final T ((fun c => [Some c]) <$> counts) (lanes <$> seq 0 T)
                 (Raw innerfunc) (Raw (addr steps)) (Raw data)) i j
            = Some bs ->
            exists c, counts !! i = Some c
                      /\ bs = chunk_bytes w itemsize
                                (subarray w base step quotient i)
                                (Word.signed w step) (Word.signed w c)).
  { intros i bs Hbs. destruct (decide (i < T)%nat) as [Hi | Hi].
    - destruct (lookup_lt_is_Some_2 counts i) as [c Hc];
        [rewrite counts_length; exact Hi |].
      rewrite (task_bytes_final itemsize i j base step c) in Hbs
        by assumption.
      exists c. split; [exact Hc | congruence].
    - rewrite task_bytes_final_None in Hbs by lia. discriminate. }
  intros i i' bs bs' x Hne Hbs Hbs' Hx Hx'.
  apply Hbytes in Hbs as (c & Hc & ->).
  apply Hbytes in Hbs' as (c' & Hc' & ->).
  destruct (decide (i < i')%nat).
  - eapply (earlier_chunk_apart itemsize j base step i i'); eauto.
  - eapply (earlier_chunk_apart itemsize j base step i' i); eauto. lia.
Qed.

End Wrapper.

(** ** The compare-and-swap function *)

(** C3: [cas(address, expected, desired)] returns the old value; when the word
    at the address differs from expected, memory is left as it is and the
    value returned is the current one; when it equals expected, desired is
    stored and expected is returned. *)
Theorem cas_contract (mem : gmap Z Z) (address expected desired current : Z) :
  mem !! address = Some current ->
  (current <> expected ->
   Cas.cas mem address expected desired = Some (current, mem))
  /\ (current = expected ->
      Cas.cas mem address expected desired
      = Some (expected, <[address := desired]> mem)).
Proof.
  intros Hcur. unfold Cas.cas, Cas.cmpxchg. rewrite Hcur.
  destruct (decide (current = expected)) as [Heq | Hne]; cbn.
  - split; [contradiction | reflexivity].
  - split; [reflexivity | contradiction].
Qed.

(** ** Start-up and tear-down *)

Section Startup.

Variable cpu_count : nat.
Variable int : string -> option Z.

Lemma NUM_CPU_pos : (1 <= Runtime.NUM_CPU cpu_count)%nat.
Proof. unfold Runtime.NUM_CPU. lia. Qed.

Lemma init_workers jit wd :
  Runtime.workers (Runtime._init jit wd) = Runtime.workers wd.
Proof. destruct jit. reflexivity. Qed.

Lemma launch_workers wd :
  Runtime.workers wd = 0%nat ->
  Runtime.workers (Runtime._launch_threads cpu_count wd)
  = Runtime.NUM_CPU cpu_count.
Proof.
  intros H. unfold Runtime._launch_threads. cbn. rewrite H. cbn.
  apply Nat2Z.id.
Qed.

Lemma launch_again wd :
  Runtime.workers wd = Runtime.NUM_CPU cpu_count ->
  Runtime.workers (Runtime._launch_threads cpu_count wd)
  = Runtime.NUM_CPU cpu_count.
Proof.
  intros H. pose proof NUM_CPU_pos. unfold Runtime._launch_threads. cbn.
  destruct (decide (Runtime.workers wd = 0%nat)); [lia | exact H].
Qed.

(** C8 (amended): importing the module starts the worker pool if and only if
    the workaround variable is set and its integer value is not zero, or the
    variable is not set and the interpreter is Python 2.6 on 64-bit Linux;
    otherwise no thread runs after the import, and the first build of a
    dispatch wrapper starts the pool. *)
Theorem eager_launch_condition environ plat jit wd wd' :
  Runtime.workers wd = 0%nat ->
  Runtime.module_body cpu_count int environ plat jit wd = Some wd' ->
  (Runtime.workers wd' <> 0%nat
   <-> (Runtime._DYLD_WORKAROUND_SET environ = true
        /\ exists val, Runtime._DYLD_WORKAROUND_VAL int environ = Some val
                       /\ val <> 0)
       \/ (Runtime._DYLD_WORKAROUND_SET environ = false
           /\ Runtime.version_info plat = (2, 6)%nat
           /\ String.prefix "linux" (Runtime.sys_platform plat) = true
           /\ Runtime.MACHINE_BITS plat = 64%nat))
  /\ (Runtime.workers wd' = 0%nat \/
      Runtime.workers wd' = Runtime.NUM_CPU cpu_count)
  /\ Runtime.workers (Runtime.build cpu_count wd')
     = Runtime.NUM_CPU cpu_count.
Proof.
  intros Hwd Hbody. pose proof NUM_CPU_pos as Hpos.
  assert (Hinit : Runtime.workers (Runtime._init jit wd) = 0%nat)
    by now rewrite init_workers.
  pose proof (launch_workers _ Hinit) as Hlaunch.
  unfold Runtime.module_body in Hbody.
  destruct (Runtime._DYLD_WORKAROUND_VAL int environ) as [val |] eqn:Hval;
    [| discriminate].
  destruct (Runtime._DYLD_WORKAROUND_SET environ) eqn:Hset;
    cbn [andb negb] in Hbody.
  - destruct (Z.eqb_spec val 0) as [Hz | Hz]; cbn [negb] in Hbody;
      injection Hbody as <-.
    + split; [| split].
      * rewrite Hinit. split; [congruence |].
        intros [(_ & v & Hv & Hne) | (? & _)]; [| discriminate].
        congruence.
      * now left.
      * unfold Runtime.build. exact Hlaunch.
    + split; [| split].
      * rewrite Hlaunch. split; [| lia].
        intros _. left. split; [reflexivity |]. now exists val.
      * now right.
      * unfold Runtime.build. apply launch_again. exact Hlaunch.
  - destruct (bool_decide (Runtime.version_info plat = (2, 6)%nat)) eqn:Hv;
      [destruct (String.prefix "linux" (Runtime.sys_platform plat)) eqn:Hp;
       [destruct (bool_decide (Runtime.MACHINE_BITS plat = 64%nat)) eqn:Hb
       |] |];
      cbn [andb] in Hbody; injection Hbody as <-.
    + apply bool_decide_eq_true in Hv, Hb.
      split; [| split].
      * rewrite Hlaunch. split; [| lia]. intros _. right. tauto.
      * now right.
      * unfold Runtime.build. apply launch_again. exact Hlaunch.
    + apply bool_decide_eq_false in Hb.
      split; [| split]; [| now left | exact Hlaunch].
      rewrite Hinit. split; [congruence |].
      intros [(? & _) | (_ & _ & _ & ?)]; [discriminate | contradiction].
    + split; [| split]; [| now left | exact Hlaunch].
      rewrite Hinit. split; [congruence |].
      intros [(? & _) | (_ & _ & ? & _)]; [discriminate | congruence].
    + apply bool_decide_eq_false in Hv.
      split; [| split]; [| now left | exact Hlaunch].
      rewrite Hinit. split; [congruence |].
      intros [(? & _) | (_ & ? & _)]; [discriminate | contradiction].
Qed.

End Startup.

(** C9: destroying the guard calls the function it was registered with, with
    the argument 0, and makes no other call; for the guard that [_init] puts
    in [_keepalive], whose function is the pool's [set_cas], the global
    compare-and-swap pointer, which [_init] had set to the address of the
    compiled function, is 0 once the guard is destroyed. *)
Theorem guard_destruction_nulls_cas :
  (forall self wd,
      Runtime.foreign_calls (Runtime.__del__ self wd)
      = Runtime.foreign_calls wd ++ [(Runtime.set_cas self, 0)])
  /\ forall engine cas_ptr wd,
       let wd1 := Runtime._init (engine, cas_ptr) wd in
       Runtime.cas_pointer wd1 = cas_ptr
       /\ Runtime._keepalive wd1
          = Runtime._keepalive wd
              ++ [Runtime.Guard Runtime.Lib_set_cas engine]
       /\ forall guard wd2,
            guard ∈ Runtime._keepalive wd1 ->
            guard ∉ Runtime._keepalive wd ->
            Runtime.cas_pointer (Runtime.__del__ guard wd2) = 0.
Proof.
  split.
  - intros self wd. unfold Runtime.__del__, Runtime.call.
    now destruct (Runtime.set_cas self).
  - intros engine cas_ptr wd wd1. subst wd1.
    split; [reflexivity |]. split; [reflexivity |].
    intros guard wd2 Hin Hnot. cbn in Hin.
    apply elem_of_app in Hin as [Hin | Hin]; [contradiction |].
    apply list_elem_of_singleton in Hin as ->. reflexivity.
Qed.

(** ** The properties on concrete inputs *)

Ltac compute_bound :=
  repeat split;
  first [ reflexivity
        | vm_compute; reflexivity
        | vm_compute; discriminate
        | vm_compute; intros ?; discriminate
        | cbn; lia ].

Lemma chunk_counts_partition_witness :
  exists m cs,
    run (build_ufunc_kernel 64 4 2 777 sample_args sample_dimensions
           sample_steps 555) = Some m
    /\ chunk_counts m = Some <$> cs
    /\ length cs = 4%nat
    /\ total_of cs = 10
    /\ Forall (fun c => 0 <= Word.signed 64 c) cs
    /\ (forall i, (i < 4 - 1)%nat -> cs !! i = Some (10 / Z.of_nat 4))
    /\ cs !! (4 - 1)%nat = Some (10 - Z.of_nat (4 - 1) * (10 / Z.of_nat 4)).
Proof.
  apply (chunk_counts_partition 64 ltac:(lia) 4 ltac:(lia)); compute_bound.
Defined.

Lemma chunk_base_pointers_witness :
  exists m,
    run (build_ufunc_kernel 64 4 2 777 sample_args sample_dimensions
           sample_steps 555) = Some m
    /\ forall i j, (i < 4)%nat -> (j < 2 + 1)%nat ->
       exists p base step,
         omap task_args (events m) !! i = Some p
         /\ cells sample_args !! j = Some base
         /\ cells sample_steps !! j = Some step
         /\ cell m p j
            = Some (Word.wrap 64 (base + step * (10 / Z.of_nat 4)
                                         * Z.of_nat i))
         /\ cell m p j
            = Some (Word.wrap 64 (base + Word.signed 64 step
                                         * (10 / Z.of_nat 4) * Z.of_nat i)).
Proof.
  apply (chunk_base_pointers 64 ltac:(lia) 4 ltac:(lia)); compute_bound.
Defined.

Lemma cas_contract_witness :
  (7 <> 7 -> Cas.cas {[16 := 7]} 16 7 9 = Some (7, {[16 := 7]}))
  /\ (7 = 7 ->
      Cas.cas {[16 := 7]} 16 7 9 = Some (7, <[16 := 9]> {[16 := 7]})).
Proof.
  apply (cas_contract {[16 := 7]} 16 7 9 7). reflexivity.
Defined.

Example cas_mismatch :
  Cas.cas {[16 := 7]} 16 5 9 = Some (7, {[16 := 7]}).
Proof. reflexivity. Qed.

Lemma gufunc_inner_dimensions_witness :
  exists m mu,
    run (build_gufunc_kernel 64 4 2 777 2 sample_args sample_dimensions
           sample_steps 555) = Some m
    /\ run (build_ufunc_kernel 64 4 2 777 sample_args sample_dimensions
              sample_steps 555) = Some mu
    /\ chunk_counts m = chunk_counts mu
    /\ forall i, (i < 4)%nat ->
       exists p blk c,
         omap task_dims (events m) !! i = Some p
         /\ deref m p = Some blk
         /\ length blk = (2 + 1)%nat
         /\ (forall k, (1 <= k <= 2)%nat ->
               exists d, cells sample_dimensions !! k = Some d
                         /\ blk !! k = Some (Some d))
         /\ blk !! 0%nat = Some (Some c)
         /\ chunk_counts mu !! i = Some (Some c).
Proof.
  apply gufunc_inner_dimensions with (total := 10); compute_bound.
Defined.

Lemma small_total_counts_witness :
  Word.udiv 3 (Word.const 64 (Z.of_nat 4)) = Some 0
  /\ (exists m,
         run (build_ufunc_kernel 64 4 2 777 sample_args (Array 8192 [3])
                sample_steps 555) = Some m
         /\ chunk_counts m = Some <$> (replicate (4 - 1) 0 ++ [3]))
  /\ forall k, (k < 4 - 1)%nat ->
       exists spaces remain m',
         distribute 64 4 (alloca 1) 0 (seq 0 k) 3 (Machine [] [])
         = Some ((spaces, remain), m')
         /\ remain = 3
         /\ Word.sub 64 remain 0 = remain - 0
         /\ 0 <= Word.signed 64 (Word.sub 64 remain 0).
Proof.
  apply small_total_counts with (dimensions := Array 8192 [3]);
    compute_bound.
Defined.

Lemma chunk_bytes_disjoint_witness :
  exists m,
    run (build_ufunc_kernel 64 4 2 777 sample_args sample_dimensions
           sample_steps 555) = Some m
    /\ lane_disjoint 64 8 sample_steps m 2.
Proof.
  apply chunk_bytes_disjoint with (total := 10) (step := 8);
    compute_bound.
Defined.

Lemma submissions_before_ready_before_synchronize_witness :
  exists m tasks,
    run (build_gufunc_kernel 64 4 2 777 2 sample_args sample_dimensions
           sample_steps 555) = Some m
    /\ events m = tasks ++ [Call_ready; Call_synchronize; Ret_void]
    /\ length tasks = 4%nat
    /\ Forall (fun e => is_add_task e = true) tasks.
Proof.
  apply submissions_before_ready_before_synchronize
    with (w := 64) (nargs := 2%nat) (innerfunc := 777) (args := sample_args)
         (dimensions := sample_dimensions) (steps := sample_steps)
         (data := 555) (total := 10) (inner_ndim := 2%nat);
    first [ now right | compute_bound ].
Defined.

Lemma tasks_share_steps_and_data_witness :
  exists m,
    run (build_ufunc_kernel 64 4 2 777 sample_args sample_dimensions
           sample_steps 555) = Some m
    /\ (forall fn' a' d' s' u',
           Call_add_task fn' a' d' s' u' ∈ events m ->
           fn' = Raw 777 /\ s' = Raw (addr sample_steps) /\ u' = Raw 555)
    /\ NoDup (omap task_args (events m) ++ omap task_dims (events m))
    /\ length (omap task_args (events m)) = 4%nat.
Proof.
  apply tasks_share_steps_and_data
    with (w := 64) (nargs := 2%nat) (innerfunc := 777) (args := sample_args)
         (dimensions := sample_dimensions) (steps := sample_steps)
         (data := 555) (total := 10) (inner_ndim := 2%nat);
    first [ now left | compute_bound ].
Defined.

(** C6, as stated, fails for a broadcast input: with a step of zero both
    threads read the one element at the lane's base address. *)
Lemma broadcast_lane_overlap :
  exists m,
    run (build_ufunc_kernel 64 2 1 777 broadcast_args broadcast_dimensions
           broadcast_steps 555) = Some m
    /\ ~ lane_disjoint 64 8 broadcast_steps m 0.
Proof.
  eexists. split; [vm_compute; reflexivity |].
  intros H.
  eapply (H 0%nat 1%nat _ _ 1000);
    [lia | vm_compute; reflexivity | vm_compute; reflexivity | |];
    apply elem_of_cons; now left.
Qed.

Example broadcast_lane_pointers :
  run (build_ufunc_kernel 64 2 1 777 broadcast_args broadcast_dimensions
         broadcast_steps 555)
  = Some (Machine [[Some 2]; [Some 2]; [Some 1000; Some 2000];
                   [Some 1000; Some 2016]]
            [Call_add_task (Raw 777) (Slot 2) (Slot 0) (Raw 12288) (Raw 555);
             Call_add_task (Raw 777) (Slot 3) (Slot 1) (Raw 12288) (Raw 555);
             Call_ready; Call_synchronize; Ret_void]).
Proof. vm_compute. reflexivity. Qed.

Lemma eager_launch_condition_witness :
  exists wd',
    Runtime.module_body 4 decimal workaround_on python34_darwin (1, 4096)
      Runtime.boot = Some wd'
    /\ (Runtime.workers wd' <> 0%nat
        <-> (Runtime._DYLD_WORKAROUND_SET workaround_on = true
             /\ exists val,
                 Runtime._DYLD_WORKAROUND_VAL decimal workaround_on
                 = Some val /\ val <> 0)
            \/ (Runtime._DYLD_WORKAROUND_SET workaround_on = false
                /\ Runtime.version_info python34_darwin = (2, 6)%nat
                /\ String.prefix "linux"
                     (Runtime.sys_platform python34_darwin) = true
                /\ Runtime.MACHINE_BITS python34_darwin = 64%nat))
    /\ (Runtime.workers wd' = 0%nat
        \/ Runtime.workers wd' = Runtime.NUM_CPU 4)
    /\ Runtime.workers (Runtime.build 4 wd') = Runtime.NUM_CPU 4.
Proof.
  eexists. split; [vm_compute; reflexivity |].
  apply (eager_launch_condition 4 decimal workaround_on python34_darwin
           (1, 4096) Runtime.boot);
    [reflexivity | vm_compute; reflexivity].
Defined.

(** C8, as stated, fails on Python 2.6 on 64-bit Linux: the pool is started
    by the import although the variable is not set. *)
Lemma eager_launch_without_toggle :
  exists wd',
    Runtime.module_body 4 decimal ∅ python26_linux (1, 4096) Runtime.boot
    = Some wd'
    /\ ~ (Runtime.workers wd' <> 0%nat
          <-> Runtime._DYLD_WORKAROUND_SET ∅ = true
              /\ exists val,
                  Runtime._DYLD_WORKAROUND_VAL decimal ∅ = Some val
                  /\ val <> 0).
Proof.
  eexists. split; [vm_compute; reflexivity |].
  intros [Hlaunched _].
  destruct Hlaunched as [Hset _]; [vm_compute; discriminate |].
  vm_compute in Hset. discriminate.
Qed.

Lemma guard_destruction_nulls_cas_witness :
  Runtime.cas_pointer (Runtime._init (1, 4096) Runtime.boot) = 4096
  /\ Runtime.cas_pointer
       (Runtime.__del__ (Runtime.Guard Runtime.Lib_set_cas 1)
          (Runtime._init (1, 4096) Runtime.boot)) = 0.
Proof.
  destruct guard_destruction_nulls_cas as [_ H].
  destruct (H 1 4096 Runtime.boot) as (Hptr & Hkeep & Hdel).
  split; [exact Hptr |].
  apply Hdel.
  - rewrite Hkeep. apply elem_of_app. right. now apply list_elem_of_singleton.
  - cbn. apply not_elem_of_nil.
Defined.

(** * Further properties *)

(** ** One pass or T tasks: the same elements *)

Section SequentialPass.

Variable w : Z.
Hypothesis w_pos : 0 < w.

Lemma chunk_bytes_start_wrap itemsize start step n :
  chunk_bytes w itemsize (Word.wrap w start) step n
  = chunk_bytes w itemsize start step n.
Proof.
  unfold chunk_bytes. apply list_bind_ext; [| reflexivity].
  intros k. apply list_fmap_ext. intros _ b _.
  unfold Word.wrap. rewrite <- !Z.add_assoc.
  now rewrite Zplus_mod_idemp_l.
Qed.

(** The first [n1] elements, then the next [n2] from where they end. *)
Lemma chunk_bytes_add itemsize start step n1 n2 :
  0 <= n1 -> 0 <= n2 ->
  chunk_bytes w itemsize start step (n1 + n2)
  = chunk_bytes w itemsize start step n1
    ++ chunk_bytes w itemsize (start + step * n1) step n2.
Proof.
  intros H1 H2. unfold chunk_bytes.
  rewrite Z2Nat.inj_add by lia.
  rewrite seq_app, bind_app. f_equal.
  assert (Hseq : seq (0 + Z.to_nat n1) (Z.to_nat n2)
                 = Nat.add (Z.to_nat n1) <$> seq 0 (Z.to_nat n2))
    by (rewrite fmap_add_seq; f_equal; lia).
  rewrite Hseq.
  rewrite list_fmap_bind.
  apply list_bind_ext; [| reflexivity].
  intros k. apply list_fmap_ext. intros _ b _. cbn.
  f_equal. rewrite Nat2Z.inj_add, Z2Nat.id by lia. lia.
Qed.

Lemma uniform_chunks_concat itemsize base step count n :
  0 <= count ->
  concat ((fun i => chunk_bytes w itemsize (subarray w base step count i)
                      (Word.signed w step) count) <$> seq 0 n)
  = chunk_bytes w itemsize base (Word.signed w step) (count * Z.of_nat n).
Proof.
  intros Hc. induction n as [| n IH].
  - cbn. now rewrite Z.mul_0_r.
  - rewrite seq_S, fmap_app, concat_app, IH. cbn [fmap list_fmap concat].
    rewrite app_nil_r.
    rewrite (subarray_signed w w_pos), chunk_bytes_start_wrap.
    replace (count * Z.of_nat (S n)) with (count * Z.of_nat n + count)
      by lia.
    rewrite chunk_bytes_add by lia.
    do 2 f_equal. lia.
Qed.

Lemma last_chunk_concat itemsize base step count n r :
  0 <= count -> 0 <= r ->
  chunk_bytes w itemsize base (Word.signed w step) (count * Z.of_nat n)
    ++ chunk_bytes w itemsize (subarray w base step count n)
         (Word.signed w step) r
  = chunk_bytes w itemsize base (Word.signed w step)
      (count * Z.of_nat n + r).
Proof.
  intros Hc Hr.
  rewrite (subarray_signed w w_pos), chunk_bytes_start_wrap.
  rewrite chunk_bytes_add by lia.
  do 2 f_equal. lia.
Qed.

Variable T : nat.
Hypothesis T_pos : (1 <= T)%nat.
Hypothesis T_fits : Z.of_nat T < Word.modulus w.

Variables (nargs : nat) (innerfunc : Z).
Variables (args dimensions steps : array) (data total : Z).

Hypothesis total_first : cells dimensions !! 0%nat = Some total.
Hypothesis args_long : (nargs + 1 <= length (cells args))%nat.
Hypothesis steps_long : (nargs + 1 <= length (cells steps))%nat.

(** X1: the bytes of a lane that the T tasks of a run touch, taken task after
    task, are exactly the bytes that one call of the inner function on the
    caller's own pointer and the whole count would touch, in the same
    order; this holds for every step and element size. *)
Theorem tasks_cover_sequential_pass itemsize j base step :
  0 <= total < 2 ^ (w - 1) ->
  (j < nargs + 1)%nat ->
  cells args !! j = Some base ->
  cells steps !! j = Some step ->
  exists m,
    run (build_ufunc_kernel w T nargs innerfunc args dimensions steps data)
    = Some m
    /\ all_task_bytes w itemsize steps m T j
       = Some (chunk_bytes w itemsize base (Word.signed w step) total).
Proof.
  intros Htotal Hj Hbase Hstep.
  pose proof (modulus_half w w_pos) as Hmod.
  assert (Hw : 0 <= total < Word.modulus w) by lia.
  pose proof (counts_exact w T T_pos nargs args steps total args_long
                steps_long Hw) as Hcounts.
  pose proof (counts_length w T T_pos nargs args steps total args_long
                steps_long) as Hlen.
  destruct (quotient_bounds T total T_pos) as [Hq Hmul]; [lia |].
  fold (uniform_count T total) in Hq, Hmul.
  set (q := uniform_count T total) in *.
  set (r := total - Z.of_nat (T - 1) * q) in *.
  assert (Hr : 0 <= r <= total) by (unfold r; nia).
  eexists. split.
  { exact (ufunc_final w T T_pos T_fits nargs innerfunc args dimensions
             steps data total total_first args_long steps_long). }
  unfold all_task_bytes.
  set (bs := fun i : nat =>
               chunk_bytes w itemsize (subarray w base step q i)
                 (Word.signed w step)
                 (if decide (i < T - 1)%nat then q else r)).
  rewrite (proj2 (mapM_Some _ _ (bs <$> seq 0 T))).
  - cbn [fmap option_fmap option_map]. f_equal.
    replace T with ((T - 1) + 1)%nat at 1 by lia.
    rewrite seq_app, fmap_app, concat_app. cbn [seq fmap list_fmap concat].
    rewrite app_nil_r.
    rewrite (list_fmap_ext bs
               (fun i => chunk_bytes w itemsize (subarray w base step q i)
                           (Word.signed w step) q) (seq 0 (T - 1))).
    + rewrite uniform_chunks_concat by exact Hq.
      unfold bs. rewrite Nat.add_0_l.
      destruct (decide (T - 1 < T - 1)%nat); [lia |].
      rewrite last_chunk_concat; [| exact Hq | exact (proj1 Hr)].
      f_equal. unfold r. lia.
    + intros k i Hi. apply lookup_seq in Hi as [-> Hi].
      unfold bs. destruct (decide (0 + k < T - 1)%nat); [reflexivity | lia].
  - apply Forall2_fmap_r, Forall_Forall2_diag, Forall_forall.
    intros i Hi. apply elem_of_seq in Hi.
    assert (Hc : thread_counts w T total !! i
                 = Some (if decide (i < T - 1)%nat then q else r)).
    { rewrite Hcounts. destruct (decide (i < T - 1)%nat).
      - rewrite lookup_app_l by (rewrite length_replicate; lia).
        now apply lookup_replicate_2.
      - rewrite lookup_app_r by (rewrite length_replicate; lia).
        rewrite length_replicate.
        now replace (i - (T - 1))%nat with 0%nat by lia. }
    rewrite (task_bytes_final w T T_pos nargs innerfunc args steps data
               total args_long steps_long itemsize i j base step _
               ltac:(lia) Hj Hbase Hstep Hc).
    unfold bs. do 2 f_equal.
    apply signed_small. destruct (decide (i < T - 1)%nat); nia.
Qed.

End SequentialPass.

(** ** Totals outside the signed range, and the generalized wrapper's
    pointers *)

Section MoreOfTheWrapper.

Variable w : Z.
Hypothesis w_pos : 0 < w.

Variable T : nat.
Hypothesis T_pos : (1 <= T)%nat.
Hypothesis T_fits : Z.of_nat T < Word.modulus w.

Variables (nargs : nat) (innerfunc : Z).
Variables (args dimensions steps : array) (data total : Z).

Hypothesis total_first : cells dimensions !! 0%nat = Some total.
Hypothesis args_long : (nargs + 1 <= length (cells args))%nat.
Hypothesis steps_long : (nargs + 1 <= length (cells steps))%nat.

(** X2: the count is divided as an unsigned number.  For every word total
    the counts of the T tasks sum to total read unsigned and none exceeds
    it; so a total that is negative as a signed number is not refused: with
    two threads or more, every task but the last gets a count that is
    positive as a signed number. *)
Theorem total_is_read_unsigned :
  0 <= total < Word.modulus w ->
  exists m cs,
    run (build_ufunc_kernel w T nargs innerfunc args dimensions steps data)
    = Some m
    /\ chunk_counts m = Some <$> cs
    /\ total_of cs = total
    /\ Forall (fun c => 0 <= c <= total) cs
    /\ (Word.signed w total < 0 -> (2 <= T)%nat ->
        Z.of_nat T <= 2 ^ (w - 1) ->
        forall i, (i < T - 1)%nat ->
          exists c, cs !! i = Some c /\ 0 < Word.signed w c).
Proof.
  intros Hw.
  pose proof (modulus_half w w_pos) as Hmod.
  pose proof (counts_exact w T T_pos nargs args steps total args_long
                steps_long Hw) as Hcounts.
  pose proof (counts_length w T T_pos nargs args steps total args_long
                steps_long) as Hlen.
  destruct (quotient_bounds T total T_pos) as [Hq Hmul]; [lia |].
  fold (uniform_count T total) in Hq, Hmul.
  exists (final T ((fun c => [Some c]) <$> thread_counts w T total)
            (thread_lanes w T nargs args steps total <$> seq 0 T)
            (Raw innerfunc) (Raw (addr steps)) (Raw data)),
         (thread_counts w T total).
  split.
  { exact (ufunc_final w T T_pos T_fits nargs innerfunc args dimensions
             steps data total total_first args_long steps_long). }
  split.
  { apply (final_chunk_counts T (replicate 1 None)); [exact Hlen | cbn; lia]. }
  rewrite Hcounts. split; [| split].
  - rewrite total_of_app, total_of_replicate. unfold total_of. cbn [foldr].
    lia.
  - apply Forall_app. split.
    + apply Forall_replicate. nia.
    + apply Forall_singleton. nia.
  - intros Hneg HT Hhalf i Hi.
    exists (uniform_count T total). split.
    + rewrite lookup_app_l by (rewrite length_replicate; lia).
      now apply lookup_replicate_2.
    + assert (Hbig : 2 ^ (w - 1) <= total).
      { unfold Word.signed in Hneg.
        destruct (Z.ltb_spec total (2 ^ (w - 1))); lia. }
      assert (Hlo : 1 <= uniform_count T total).
      { unfold uniform_count. apply Z.div_le_lower_bound; lia. }
      assert (Hhi : uniform_count T total < 2 ^ (w - 1)).
      { unfold uniform_count. apply Z.div_lt_upper_bound; [lia | nia]. }
      rewrite signed_small by lia. lia.
Qed.

(** X3: the generalized wrapper submits the same tasks as the elementwise
    wrapper and gives them the same pointers: the argument slot of every
    task has nargs + 1 cells and holds what the elementwise wrapper computes
    from the same arrays, whatever the inner dimensions are. *)
Theorem gufunc_pointers_as_elementwise inner_ndim :
  (inner_ndim + 1 <= length (cells dimensions))%nat ->
  exists m mu,
    run (build_gufunc_kernel w T nargs innerfunc inner_ndim args dimensions
           steps data) = Some m
    /\ run (build_ufunc_kernel w T nargs innerfunc args dimensions steps
              data) = Some mu
    /\ events m = events mu
    /\ forall p, p ∈ omap task_args (events m) ->
         deref m p = deref mu p
         /\ exists blk, deref m p = Some blk
                        /\ length blk = (nargs + 1)%nat.
Proof.
  intros Hdims.
  pose proof (counts_length w T T_pos nargs args steps total args_long
                steps_long) as Hlen.
  eexists. eexists.
  split.
  { exact (gufunc_final w T T_pos T_fits nargs innerfunc args dimensions
             steps data total total_first args_long steps_long inner_ndim
             Hdims). }
  split.
  { exact (ufunc_final w T T_pos T_fits nargs innerfunc args dimensions
             steps data total total_first args_long steps_long). }
  split; [reflexivity |].
  intros p Hp. rewrite final_task_args in Hp.
  apply list_elem_of_fmap in Hp as (i & -> & Hi). apply elem_of_seq in Hi.
  rewrite !final_args_slot by (rewrite length_fmap; exact Hlen).
  split; [reflexivity |].
  rewrite list_lookup_fmap, lookup_seq_lt by lia. cbn.
  eexists. split; [reflexivity |].
  unfold thread_lanes. now rewrite lane_cells_length, length_replicate.
Qed.

End MoreOfTheWrapper.

(** ** What the wrapper reads *)

Lemma bind_fail {A B} (c : M A) (k : A -> M B) m :
  c m = None -> bind c k m = None.
Proof. intros H. unfold bind. now rewrite H. Qed.

Lemma short_list_misses {A} (l : list A) n :
  ~ (n <= length l)%nat ->
  Exists (fun j => l !! j = None) (seq 0 n).
Proof.
  intros H. apply Exists_exists. exists (length l). split.
  - apply elem_of_seq. lia.
  - now apply lookup_ge_None.
Qed.

Section Undefined.

Variable w : Z.
Variable NUM_CPU : nat.

Lemma load_steps_fail (steps : array) range m :
  Exists (fun j => cells steps !! j = None) range ->
  load_steps steps range m = None.
Proof.
  induction 1 as [j range Hj | j range _ IH]; cbn [load_steps]; unfold load.
  - apply bind_fail. unfold lift. now rewrite Hj.
  - unfold bind at 1, lift.
    destruct (cells steps !! j); [| reflexivity].
    now apply bind_fail.
Qed.

Lemma fill_lanes_fail (args : array) steps_list count space i range :
  Exists (fun j => cells args !! j = None) range ->
  forall m, fill_lanes w args steps_list count space i range m = None.
Proof.
  induction 1 as [j range Hj | j range _ IH]; intros m;
    cbn [fill_lanes]; unfold load.
  - apply bind_fail. unfold lift. now rewrite Hj.
  - unfold bind, lift.
    destruct (cells args !! j); [| reflexivity].
    destruct (steps_list !! j); [| reflexivity].
    destruct (store _ _ _ _) as [[[] m'] |]; [apply IH | reflexivity].
Qed.

Lemma fill_args_fail (args : array) steps_list count array_count i range m :
  Exists (fun j => cells args !! j = None) (seq 0 array_count) ->
  fill_args w args steps_list count array_count (i :: range) m = None.
Proof.
  intros H. cbn [fill_args].
  rewrite (bind_run _ _ _ _ _ (alloca_makes _ m)).
  apply bind_fail. now apply fill_lanes_fail.
Qed.

Lemma distribute_fail mk_space count i range remain m :
  mk_space m = None ->
  distribute w NUM_CPU mk_space count (i :: range) remain m = None.
Proof. intros H. cbn [distribute]. now apply bind_fail. Qed.

Lemma gufunc_space_fail (dimensions : array) inner_ndim m :
  ~ (inner_ndim + 1 <= length (cells dimensions))%nat ->
  gufunc_space dimensions inner_ndim m = None.
Proof.
  intros H. unfold gufunc_space.
  rewrite (bind_run _ _ _ _ _ (alloca_makes _ m)).
  apply bind_fail. unfold memcpy; cbn [slots].
  rewrite lookup_last_slot, length_replicate.
  destruct (decide (inner_ndim + 1 <= inner_ndim + 1)%nat); [| lia].
  destruct (decide (inner_ndim + 1 <= length (cells dimensions))%nat);
    [contradiction | reflexivity].
Qed.

Hypothesis NUM_CPU_pos : (1 <= NUM_CPU)%nat.
Hypothesis NUM_CPU_fits : Z.of_nat NUM_CPU < Word.modulus w.

(** A wrapper whose slots can be made runs if and only if the two arrays
    are long enough. *)
Lemma kernel_defined_iff mk_space blk0 array_count innerfunc
    (args dimensions steps : array) data total :
  makes mk_space blk0 -> (0 < length blk0)%nat ->
  cells dimensions !! 0%nat = Some total ->
  is_Some (run (kernel w NUM_CPU mk_space array_count innerfunc args
                  dimensions steps data))
  <-> (array_count <= length (cells args))%nat
      /\ (array_count <= length (cells steps))%nat.
Proof.
  intros Hmk Hblk Htotal.
  assert (Hconst : Word.const w (Z.of_nat NUM_CPU) <> 0)
    by (rewrite const_NUM_CPU by exact NUM_CPU_fits; lia).
  split.
  - intros Hsome.
    destruct (decide (array_count <= length (cells steps))%nat) as [Hs | Hs];
      [destruct (decide (array_count <= length (cells args))%nat)
         as [Ha | Ha]; [now split |] |];
      exfalso; revert Hsome; unfold run, kernel, load;
      rewrite (bind_run _ _ _ _ _ (lift_run _ _ _ Htotal));
      (erewrite bind_run;
       [| apply lift_run; unfold Word.udiv;
          destruct (Z.eqb_spec (Word.const w (Z.of_nat NUM_CPU)) 0);
          [contradiction | reflexivity]]);
      rewrite (bind_run _ _ _ _ _
                 (distribute_run w NUM_CPU _ _ _ Hmk Hblk _ _ _)).
    + erewrite bind_run; cycle 1.
      { apply load_steps_run. apply Forall_forall. intros j Hj.
        apply elem_of_seq in Hj. apply lookup_lt_is_Some. lia. }
      destruct NUM_CPU as [| n]; [lia |]. cbn [seq].
      rewrite bind_fail; [intros [? ?]; discriminate |].
      apply fill_args_fail. now apply short_list_misses.
    + rewrite bind_fail; [intros [? ?]; discriminate |].
      apply load_steps_fail. now apply short_list_misses.
  - intros [Ha Hs]. erewrite kernel_run; eauto.
Qed.

End Undefined.

Lemma ufunc_defined w T nargs innerfunc
    (args dimensions steps : array) data :
  (1 <= T)%nat -> Z.of_nat T < Word.modulus w ->
  is_Some (run (build_ufunc_kernel w T nargs innerfunc args dimensions steps
                  data))
  <-> (1 <= length (cells dimensions))%nat
      /\ (nargs + 1 <= length (cells args))%nat
      /\ (nargs + 1 <= length (cells steps))%nat.
Proof.
  intros HT Hfits.
  destruct (cells dimensions !! 0%nat) as [total |] eqn:Htotal.
  - pose proof (lookup_lt_Some _ _ _ Htotal) as Hlen.
    unfold build_ufunc_kernel.
    rewrite (kernel_defined_iff w T HT Hfits (alloca 1) (replicate 1 None)
               (nargs + 1) innerfunc args dimensions steps data total
               (alloca_makes 1)) by (assumption || cbn; lia).
    intuition lia.
  - apply lookup_ge_None in Htotal. split; [| lia].
    unfold run, build_ufunc_kernel, kernel, load.
    rewrite bind_fail; [intros [? ?]; discriminate |].
    unfold lift. rewrite (proj2 (lookup_ge_None _ _)) by lia. reflexivity.
Qed.

Lemma gufunc_defined w T nargs innerfunc inner_ndim
    (args dimensions steps : array) data :
  (1 <= T)%nat -> Z.of_nat T < Word.modulus w ->
  is_Some (run (build_gufunc_kernel w T nargs innerfunc inner_ndim args
                  dimensions steps data))
  <-> (inner_ndim + 1 <= length (cells dimensions))%nat
      /\ (nargs + 1 <= length (cells args))%nat
      /\ (nargs + 1 <= length (cells steps))%nat.
Proof.
  intros HT Hfits.
  destruct (cells dimensions !! 0%nat) as [total |] eqn:Htotal.
  - pose proof (lookup_lt_Some _ _ _ Htotal) as Hlen.
    unfold build_gufunc_kernel.
    destruct (decide (inner_ndim + 1 <= length (cells dimensions))%nat)
      as [Hd | Hd].
    + rewrite (kernel_defined_iff w T HT Hfits
                 (gufunc_space dimensions inner_ndim)
                 (Some <$> take (inner_ndim + 1) (cells dimensions))
                 (nargs + 1) innerfunc args dimensions steps data total).
      * intuition lia.
      * now apply gufunc_space_makes.
      * rewrite length_fmap, length_take. lia.
      * exact Htotal.
    + split; [| intros [? _]; contradiction].
      unfold run, kernel, load.
      rewrite (bind_run _ _ _ _ _ (lift_run _ _ _ Htotal)).
      erewrite bind_run; cycle 1.
      { apply lift_run. unfold Word.udiv.
        rewrite const_NUM_CPU by exact Hfits.
        destruct (Z.eqb_spec (Z.of_nat T) 0); [lia | reflexivity]. }
      destruct T as [| n]; [lia |]. cbn [seq].
      rewrite bind_fail; [intros [? ?]; discriminate |].
      apply distribute_fail. now apply gufunc_space_fail.
  - apply lookup_ge_None in Htotal. split; [| lia].
    unfold run, build_gufunc_kernel, kernel, load.
    rewrite bind_fail; [intros [? ?]; discriminate |].
    unfold lift. rewrite (proj2 (lookup_ge_None _ _)) by lia. reflexivity.
Qed.

(** X4: the elementwise wrapper reads [dimensions[0]] and the first
    nargs + 1 entries of [args] and of [steps], and nothing else: its run is
    defined exactly when the three arrays are that long. *)
Theorem ufunc_wrapper_defined_iff w T nargs innerfunc
    (args dimensions steps : array) data :
  (1 <= T)%nat -> Z.of_nat T < Word.modulus w ->
  is_Some (run (build_ufunc_kernel w T nargs innerfunc args dimensions steps
                  data))
  <-> (1 <= length (cells dimensions))%nat
      /\ (nargs + 1 <= length (cells args))%nat
      /\ (nargs + 1 <= length (cells steps))%nat.
Proof. apply ufunc_defined. Qed.

(** X5: the generalized wrapper reads inner_ndim + 1 entries of
    [dimensions] besides: its run is defined exactly when [dimensions] holds
    the loop count and all inner dimensions, and [args] and [steps] hold
    nargs + 1 entries. *)
Theorem gufunc_wrapper_defined_iff w T nargs innerfunc inner_ndim
    (args dimensions steps : array) data :
  (1 <= T)%nat -> Z.of_nat T < Word.modulus w ->
  is_Some (run (build_gufunc_kernel w T nargs innerfunc inner_ndim args
                  dimensions steps data))
  <-> (inner_ndim + 1 <= length (cells dimensions))%nat
      /\ (nargs + 1 <= length (cells args))%nat
      /\ (nargs + 1 <= length (cells steps))%nat.
Proof. apply gufunc_defined. Qed.

Lemma take_eq_lookup_total `{Inhabited A} (l l' : list A) n j :
  take n l' = take n l -> (j < n)%nat -> l' !!! j = l !!! j.
Proof.
  intros Heq Hj. rewrite !list_lookup_total_alt.
  rewrite <- (lookup_take_lt l' n j), <- (lookup_take_lt l n j) by exact Hj.
  now rewrite Heq.
Qed.

Lemma take_eq_length {A} (l l' : list A) n :
  take n l' = take n l -> (n <= length l)%nat -> (n <= length l')%nat.
Proof.
  intros Heq Hn. apply (f_equal length) in Heq.
  rewrite !length_take in Heq. lia.
Qed.

Lemma lane_cells_ext w args args' steps_list steps_list' count i range :
  Forall (fun j => args' !!! j = args !!! j
                   /\ steps_list' !!! j = steps_list !!! j) range ->
  forall blk,
    lane_cells w args' steps_list' count i range blk
    = lane_cells w args steps_list count i range blk.
Proof.
  induction 1 as [| j range [Ha Hs] _ IH]; intros blk; [reflexivity |].
  cbn [lane_cells]. now rewrite Ha, Hs, IH.
Qed.

Lemma thread_lanes_ext w T nargs (args args' steps steps' : array) total i :
  take (nargs + 1) (cells args') = take (nargs + 1) (cells args) ->
  take (nargs + 1) (cells steps') = take (nargs + 1) (cells steps) ->
  thread_lanes w T nargs args' steps' total i
  = thread_lanes w T nargs args steps total i.
Proof.
  intros Ha Hs. unfold thread_lanes, loaded_steps.
  assert (Hsteps : (fun j => cells steps' !!! j) <$> seq 0 (nargs + 1)
                   = (fun j => cells steps !!! j) <$> seq 0 (nargs + 1)).
  { apply list_fmap_ext. intros k j Hj. apply lookup_seq in Hj as [-> Hk].
    now apply (take_eq_lookup_total _ _ (nargs + 1)). }
  rewrite Hsteps. apply lane_cells_ext, Forall_forall.
  intros j Hj. apply elem_of_seq in Hj. split; [| reflexivity].
  apply (take_eq_lookup_total _ _ (nargs + 1)); [exact Ha | lia].
Qed.

(** X6: the generalized wrapper depends on the first nargs + 1 entries of
    [args] and [steps], on the first inner_ndim + 1 entries of [dimensions]
    and on the address of [steps], and on nothing behind them: what follows
    in the arrays (the strides of the core dimensions, which the inner
    function reads through the shared [steps] pointer) does not change the
    tasks. *)
Theorem gufunc_wrapper_reads_prefixes w T nargs innerfunc inner_ndim
    (args dimensions steps args' dimensions' steps' : array) data :
  (1 <= T)%nat -> Z.of_nat T < Word.modulus w ->
  (inner_ndim + 1 <= length (cells dimensions))%nat ->
  (nargs + 1 <= length (cells args))%nat ->
  (nargs + 1 <= length (cells steps))%nat ->
  take (inner_ndim + 1) (cells dimensions')
  = take (inner_ndim + 1) (cells dimensions) ->
  take (nargs + 1) (cells args') = take (nargs + 1) (cells args) ->
  take (nargs + 1) (cells steps') = take (nargs + 1) (cells steps) ->
  addr steps' = addr steps ->
  run (build_gufunc_kernel w T nargs innerfunc inner_ndim args' dimensions'
         steps' data)
  = run (build_gufunc_kernel w T nargs innerfunc inner_ndim args dimensions
           steps data).
Proof.
  intros HT Hfits Hd Ha Hs Ed Ea Es Eaddr.
  destruct (lookup_lt_is_Some_2 (cells dimensions) 0) as [total Htotal];
    [lia |].
  assert (Htotal' : cells dimensions' !! 0%nat = Some total).
  { rewrite <- (lookup_take_lt _ (inner_ndim + 1)) by lia.
    rewrite Ed, lookup_take_lt by lia. exact Htotal. }
  rewrite (gufunc_final w T HT Hfits nargs innerfunc args dimensions steps
             data total Htotal Ha Hs inner_ndim Hd).
  rewrite (gufunc_final w T HT Hfits nargs innerfunc args' dimensions' steps'
             data total Htotal'
             (take_eq_length _ _ _ Ea Ha) (take_eq_length _ _ _ Es Hs)
             inner_ndim (take_eq_length _ _ _ Ed Hd)).
  rewrite Ed, Eaddr. do 2 f_equal.
  apply list_fmap_ext. intros _ i _. now apply thread_lanes_ext.
Qed.

(** ** The compare-and-swap function, used *)

(** X7: a call of the compare-and-swap function returns the word that was at
    the address before the call; it changes no other address, stores at the
    address only the replacement and only when the word was the expected
    one, and is undefined exactly on an address outside the memory. *)
Theorem cas_returns_previous_word (mem : gmap Z Z) (address old repl : Z) :
  (Cas.cas mem address old repl = None <-> mem !! address = None)
  /\ forall out mem',
       Cas.cas mem address old repl = Some (out, mem') ->
       mem !! address = Some out
       /\ mem' !! address = Some (if decide (out = old) then repl else out)
       /\ forall other, other <> address -> mem' !! other = mem !! other.
Proof.
  unfold Cas.cas, Cas.cmpxchg.
  destruct (mem !! address) as [cur |] eqn:Hcur.
  - split; [split; [| discriminate] |].
    + destruct (decide (cur = old)); discriminate.
    + intros out mem' H.
      destruct (decide (cur = old)) as [-> | Hne]; cbn in H;
        injection H as <- <-.
      * split; [reflexivity |]. split.
        -- destruct (decide (old = old)); [| contradiction].
           apply lookup_insert_eq.
        -- intros other Hother. now apply lookup_insert_ne.
      * split; [reflexivity |]. split; [| reflexivity].
        destruct (decide (cur = old)); [contradiction | exact Hcur].
  - split; [split; reflexivity | discriminate].
Qed.

(** X8: taking and releasing a lock with the function.  When the word at the
    address is [free], swapping it for [held] succeeds and returns [free];
    a second attempt to take the lock then fails, returns [held] and leaves
    the memory alone; swapping back restores the memory as it was. *)
Theorem cas_lock_round_trip (mem : gmap Z Z) (address free held : Z) :
  mem !! address = Some free ->
  free <> held ->
  exists locked,
    Cas.cas mem address free held = Some (free, locked)
    /\ Cas.cas locked address free held = Some (held, locked)
    /\ Cas.cas locked address held free = Some (held, mem).
Proof.
  intros Hfree Hne.
  exists (<[address := held]> mem).
  unfold Cas.cas, Cas.cmpxchg.
  rewrite Hfree, !lookup_insert_eq.
  destruct (decide (free = free)); [| contradiction].
  destruct (decide (held = free)); [congruence |].
  destruct (decide (held = held)); [| contradiction].
  cbn. repeat split.
  rewrite insert_insert_eq. do 2 f_equal. now apply insert_id.
Qed.

(** ** The import, step by step *)

Section AtImport.

Variable cpu_count : nat.
Variable int : string -> option Z.


Lemma init_effects jit wd :
  Runtime._init jit wd
  = Runtime.World jit.2 (Runtime.workers wd)
      (Runtime.symbols wd
       ++ ["numba_add_task"; "numba_synchronize"; "numba_ready"])
      (Runtime._keepalive wd ++ [Runtime.Guard Runtime.Lib_set_cas jit.1])
      (Runtime.foreign_calls wd ++ [(Runtime.Lib_set_cas, jit.2)]).
Proof.
  destruct jit as [engine cas_ptr]. unfold Runtime._init, Runtime.add_symbol.
  cbn. now rewrite <- !app_assoc.
Qed.

(** X10: an import that succeeds registers the three entry points of the
    pool under their names, appends one guard to [_keepalive] and calls into
    the extension in this order: [set_cas] with the address of the compiled
    function, once, and only then, if at all, [launch_threads], once, with a
    thread count of at least one.  No thread is launched before the
    compare-and-swap pointer is in place. *)
Theorem import_registers_cas_before_launch environ plat jit wd wd' :
  Runtime.module_body cpu_count int environ plat jit wd = Some wd' ->
  Runtime.symbols wd'
  = Runtime.symbols wd
      ++ ["numba_add_task"; "numba_synchronize"; "numba_ready"]
  /\ Runtime._keepalive wd'
     = Runtime._keepalive wd ++ [Runtime.Guard Runtime.Lib_set_cas jit.1]
  /\ Runtime.cas_pointer wd' = jit.2
  /\ exists launches,
       Runtime.foreign_calls wd'
       = Runtime.foreign_calls wd ++ (Runtime.Lib_set_cas, jit.2) :: launches
       /\ (launches = []
           \/ exists n, launches = [(Runtime.Lib_launch_threads, Z.of_nat n)]
                        /\ (1 <= n)%nat
                        /\ n = Nat.max 1 cpu_count).
Proof.
  unfold Runtime.module_body. rewrite init_effects.
  destruct (Runtime._DYLD_WORKAROUND_VAL int environ); [| discriminate].
  assert (Hlaunch : forall w0,
            w0 = Runtime.World jit.2 (Runtime.workers wd)
                   (Runtime.symbols wd
                    ++ ["numba_add_task"; "numba_synchronize"; "numba_ready"])
                   (Runtime._keepalive wd
                    ++ [Runtime.Guard Runtime.Lib_set_cas jit.1])
                   (Runtime.foreign_calls wd ++ [(Runtime.Lib_set_cas, jit.2)])
            \/ w0 = Runtime._launch_threads cpu_count
                      (Runtime.World jit.2 (Runtime.workers wd)
                         (Runtime.symbols wd
                          ++ ["numba_add_task"; "numba_synchronize";
                              "numba_ready"])
                         (Runtime._keepalive wd
                          ++ [Runtime.Guard Runtime.Lib_set_cas jit.1])
                         (Runtime.foreign_calls wd
                          ++ [(Runtime.Lib_set_cas, jit.2)])) ->
            Some w0 = Some wd' ->
            Runtime.symbols wd'
            = Runtime.symbols wd
                ++ ["numba_add_task"; "numba_synchronize"; "numba_ready"]
            /\ Runtime._keepalive wd'
               = Runtime._keepalive wd
                   ++ [Runtime.Guard Runtime.Lib_set_cas jit.1]
            /\ Runtime.cas_pointer wd' = jit.2
            /\ exists launches,
                 Runtime.foreign_calls wd'
                 = Runtime.foreign_calls wd
                     ++ (Runtime.Lib_set_cas, jit.2) :: launches
                 /\ (launches = []
                     \/ exists n,
                          launches
                          = [(Runtime.Lib_launch_threads, Z.of_nat n)]
                          /\ (1 <= n)%nat /\ n = Nat.max 1 cpu_count)).
  { intros w0 [-> | ->] Heq; injection Heq as <-; cbn.
    - repeat split. exists []. split; [reflexivity | now left].
    - repeat split.
      exists [(Runtime.Lib_launch_threads,
               Z.of_nat (Runtime.NUM_CPU cpu_count))].
      split; [now rewrite <- app_assoc |].
      right. exists (Runtime.NUM_CPU cpu_count).
      unfold Runtime.NUM_CPU. repeat split. lia. }
  repeat match goal with
         | |- context [if ?b then _ else _] => destruct b
         end; apply Hlaunch; auto.
Qed.

(** X11: setting the variable to a string that reads as zero switches the
    launch at import time off, on every platform, Python 2.6 on Linux
    included: the import does what [_init] does and nothing more. *)
Theorem zero_switches_eager_launch_off environ plat jit wd s :
  environ !! "NUMBA_DYLD_WORKAROUND" = Some s ->
  int s = Some 0 ->
  Runtime.module_body cpu_count int environ plat jit wd
  = Some (Runtime._init jit wd)
  /\ Runtime.workers (Runtime._init jit wd) = Runtime.workers wd.
Proof.
  intros Hs Hint. split; [| apply init_workers].
  unfold Runtime.module_body, Runtime._DYLD_WORKAROUND_VAL,
    Runtime._DYLD_WORKAROUND_SET.
  rewrite Hs, Hint.
  rewrite bool_decide_eq_true_2 by (now exists s). reflexivity.
Qed.

Lemma build_effects wd :
  Runtime.workers wd = 0%nat
  \/ Runtime.workers wd = Runtime.NUM_CPU cpu_count ->
  Runtime.build cpu_count wd
  = Runtime.World (Runtime.cas_pointer wd) (Runtime.NUM_CPU cpu_count)
      (Runtime.symbols wd) (Runtime._keepalive wd)
      (Runtime.foreign_calls wd
       ++ [(Runtime.Lib_launch_threads,
            Z.of_nat (Runtime.NUM_CPU cpu_count))]).
Proof.
  intros H. pose proof (NUM_CPU_pos cpu_count) as Hpos.
  unfold Runtime.build, Runtime._launch_threads, Runtime.call.
  f_equal.
  destruct (decide (Runtime.workers wd = 0%nat)); [apply Nat2Z.id | lia].
Qed.

(** X12: wrappers built one after the other.  Every build asks the pool for
    [NUM_CPU] threads, so n builds leave n such requests in the calls made
    into the extension; from the first build on the pool has [NUM_CPU]
    threads (at least one, also on a machine that reports no processor),
    and the compare-and-swap pointer and the guards stay as they were. *)
Theorem repeated_builds n wd :
  Runtime.workers wd = 0%nat
  \/ Runtime.workers wd = Runtime.NUM_CPU cpu_count ->
  let wd' := builds cpu_count n wd in
  Runtime.foreign_calls wd'
  = Runtime.foreign_calls wd
      ++ replicate n (Runtime.Lib_launch_threads,
                      Z.of_nat (Runtime.NUM_CPU cpu_count))
  /\ ((1 <= n)%nat ->
      Runtime.workers wd' = Runtime.NUM_CPU cpu_count
      /\ (1 <= Runtime.workers wd')%nat)
  /\ Runtime.cas_pointer wd' = Runtime.cas_pointer wd
  /\ Runtime._keepalive wd' = Runtime._keepalive wd.
Proof.
  intros Hwd. cbn zeta. unfold builds.
  pose proof (NUM_CPU_pos cpu_count) as Hpos.
  induction n as [| n IH].
  - cbn. rewrite app_nil_r. repeat split; lia.
  - destruct IH as (Hcalls & Hworkers & Hcas & Hkeep).
    rewrite Nat.iter_succ.
    assert (Hstate : Runtime.workers
                       (Nat.iter n (Runtime.build cpu_count) wd) = 0%nat
                     \/ Runtime.workers
                          (Nat.iter n (Runtime.build cpu_count) wd)
                        = Runtime.NUM_CPU cpu_count).
    { destruct n as [| n']; [exact Hwd |].
      right. apply Hworkers. lia. }
    rewrite (build_effects _ Hstate).
    cbn [Runtime.foreign_calls Runtime.workers Runtime.cas_pointer
           Runtime._keepalive].
    rewrite Hcalls, Hcas, Hkeep, replicate_S_end, <- app_assoc.
    repeat split; lia.
Qed.

End AtImport.

(** ** The builders *)

Lemma symbols_of_size (l : list string) :
  size (list_to_set l : gset string) = length (remove_dups l).
Proof.
  rewrite <- (size_list_to_set (C := gset string) (remove_dups l))
    by apply NoDup_remove_dups.
  f_equal. apply set_eq. intros x.
  now rewrite !elem_of_list_to_set, elem_of_remove_dups.
Qed.

Lemma remove_dups_shorter (l : list string) :
  (length (remove_dups l) <= length l)%nat.
Proof.
  apply submseteq_length, NoDup_submseteq; [apply NoDup_remove_dups |].
  intros x. now rewrite elem_of_remove_dups.
Qed.

Lemma inner_ndim_size (sin sout : list (list string)) :
  inner_ndim sin sout = length (remove_dups (concat sin ++ concat sout)).
Proof.
  unfold inner_ndim, symbols_of.
  rewrite <- list_to_set_app_L. apply symbols_of_size.
Qed.

(** X13: [inner_ndim] is the number of different symbols of the signature:
    a symbol counts once however often it occurs and on whichever side, so
    the number is at most the number of occurrences, does not change when
    inputs and outputs are swapped, is the number of input symbols when the
    outputs bring no new one, and is zero exactly when no term has a
    symbol. *)
Theorem inner_ndim_counts_distinct_symbols (sin sout : list (list string)) :
  inner_ndim sin sout = length (remove_dups (concat sin ++ concat sout))
  /\ (inner_ndim sin sout <= length (concat sin) + length (concat sout))%nat
  /\ inner_ndim sin sout = inner_ndim sout sin
  /\ ((forall s, s ∈ concat sout -> s ∈ concat sin) ->
      inner_ndim sin sout = length (remove_dups (concat sin)))
  /\ (inner_ndim sin sout = 0%nat <-> concat sin = [] /\ concat sout = []).
Proof.
  assert (Hsize : inner_ndim sin sout
                  = length (remove_dups (concat sin ++ concat sout))).
  { apply inner_ndim_size. }
  split; [exact Hsize |]. split; [| split; [| split]].
  - rewrite Hsize, <- length_app. apply remove_dups_shorter.
  - unfold inner_ndim. f_equal. apply union_comm_L.
  - intros Hsub. unfold inner_ndim, symbols_of.
    rewrite <- symbols_of_size. f_equal. apply set_eq. intros x.
    rewrite elem_of_union, !elem_of_list_to_set.
    split; [intros [Hx | Hx]; auto | now left].
  - unfold inner_ndim, symbols_of. rewrite size_empty_iff. split.
    + intros Hempty.
      assert (Hnone : forall l : list string,
                 (forall x, x ∈ l -> x ∈ concat sin \/ x ∈ concat sout) ->
                 l = []).
      { intros [| x l] Hl; [reflexivity |]. exfalso.
        apply (not_elem_of_empty (C := gset string) x).
        rewrite <- Hempty, elem_of_union, !elem_of_list_to_set.
        apply Hl. now left. }
      split; apply Hnone; auto.
    + intros [-> ->]. apply set_equiv. intros x.
      rewrite elem_of_union, !elem_of_list_to_set. cbn.
      split; [intros [H | H]; inversion H |].
      intros H. now apply not_elem_of_empty in H.
Qed.

(** The argument slots of a wrapper that ran. *)
Lemma final_arg_slots w T nargs (args steps : array) total ds fn s u p :
  length ds = T ->
  p ∈ omap task_args
        (events (final T ds (thread_lanes w T nargs args steps total
                               <$> seq 0 T) fn s u)) ->
  exists blk,
    deref (final T ds (thread_lanes w T nargs args steps total <$> seq 0 T)
             fn s u) p = Some blk
    /\ length blk = (nargs + 1)%nat.
Proof.
  intros Hds Hp. rewrite final_task_args in Hp.
  apply list_elem_of_fmap in Hp as (i & -> & Hi). apply elem_of_seq in Hi.
  rewrite final_args_slot by exact Hds.
  rewrite list_lookup_fmap, lookup_seq_lt by lia. cbn.
  eexists. split; [reflexivity |].
  unfold thread_lanes. now rewrite lane_cells_length, length_replicate.
Qed.

Lemma final_dims_slots T blk0 cs az fn s u p :
  length cs = T ->
  p ∈ omap task_dims
        (events (final T ((fun c => <[0%nat := Some c]> blk0) <$> cs) az
                   fn s u)) ->
  exists blk,
    deref (final T ((fun c => <[0%nat := Some c]> blk0) <$> cs) az fn s u) p
    = Some blk
    /\ length blk = length blk0.
Proof.
  intros Hcs Hp. rewrite final_task_dims in Hp.
  apply list_elem_of_fmap in Hp as (i & -> & Hi). apply elem_of_seq in Hi.
  rewrite final_dims_slot by (rewrite length_fmap; lia).
  rewrite list_lookup_fmap.
  destruct (lookup_lt_is_Some_2 cs i) as [c Hc]; [lia |].
  rewrite Hc. cbn. eexists. split; [reflexivity |].
  now rewrite length_insert.
Qed.

Section Builders.

Variable w : Z.
Variable cpu_count : nat.
Hypothesis NUM_CPU_fits : Z.of_nat (Runtime.NUM_CPU cpu_count) < Word.modulus w.

(** X14: [ParallelUFuncBuilder.build] asks for the threads first, also when
    a dtype lookup then fails.  When it returns, it returns one dtype number
    per argument and one for the result, and an empty keep-alive; the wrapper
    it returns has exactly as many lanes as there are dtype numbers: it is
    defined when [args] and [steps] hold that many entries and
    [dimensions] one, submits [NUM_CPU] tasks, and every argument slot has
    one cell per dtype number. *)
Theorem ufunc_build_lanes_match_dtypes np_dtype_num innerfunc sig wd :
  let out := ParallelUFuncBuilder.build w cpu_count np_dtype_num innerfunc
               sig wd in
  out.1 = Runtime._launch_threads cpu_count wd
  /\ forall dtypenums wrapper keepalive,
       out.2 = Some (dtypenums, wrapper, keepalive) ->
       length dtypenums = (length (Types.args sig) + 1)%nat
       /\ keepalive = []
       /\ forall args dimensions steps data,
            (is_Some (run (wrapper args dimensions steps data))
             <-> (1 <= length (cells dimensions))%nat
                 /\ (length dtypenums <= length (cells args))%nat
                 /\ (length dtypenums <= length (cells steps))%nat)
            /\ forall m,
                 run (wrapper args dimensions steps data) = Some m ->
                 length (omap task_args (events m))
                 = Runtime.NUM_CPU cpu_count
                 /\ forall p, p ∈ omap task_args (events m) ->
                      exists blk, deref m p = Some blk
                                  /\ length blk = length dtypenums.
Proof.
  cbn zeta. split; [reflexivity |].
  intros dtypenums wrapper keepalive Hout.
  unfold ParallelUFuncBuilder.build in Hout; cbn [snd] in Hout.
  destruct (mapM _ (Types.args sig)) as [nums |] eqn:Hnums;
    [| discriminate].
  cbn in Hout.
  destruct (np_dtype_num _) as [num |]; [| discriminate].
  cbn in Hout. injection Hout as <- <- <-.
  apply length_mapM in Hnums.
  assert (Hlen : length (nums ++ [num]) = (length (Types.args sig) + 1)%nat)
    by (rewrite length_app; cbn; lia).
  split; [exact Hlen |]. split; [reflexivity |].
  intros args dimensions steps data. rewrite Hlen.
  pose proof (NUM_CPU_pos cpu_count) as Hpos.
  unfold build_ufunc_wrapper. split.
  - now apply ufunc_defined.
  - intros m Hm.
    assert (Hsome : is_Some (run (build_ufunc_kernel w
                      (Runtime.NUM_CPU cpu_count) (length (Types.args sig))
                      innerfunc args dimensions steps data)))
      by (rewrite Hm; eauto).
    apply ufunc_defined in Hsome as (Hd & Ha & Hs); [| assumption ..].
    destruct (lookup_lt_is_Some_2 (cells dimensions) 0) as [total Htotal];
      [lia |].
    rewrite (ufunc_final w _ Hpos NUM_CPU_fits _ innerfunc args dimensions
               steps data total Htotal Ha Hs) in Hm.
    injection Hm as <-. split.
    + now rewrite final_task_args, length_fmap, length_seq.
    + intros p Hp. eapply final_arg_slots; [| exact Hp].
      rewrite length_fmap.
      exact (counts_length w _ Hpos _ args steps total Ha Hs).
Qed.

(** X15: [ParallelGUFuncBuilder.build] returns one dtype number per argument
    of the signature and none for a result, yet the wrapper it returns
    offsets one lane more than that: it is defined exactly when [args] and
    [steps] hold one entry more than there are dtype numbers (and
    [dimensions] one entry more than there are different symbols), and every
    argument slot has one cell more than there are dtype numbers; every
    dimension slot has one entry per different symbol and one for the loop
    count. *)
Theorem gufunc_build_one_lane_more_than_dtypes as_dtype_num innerfunc sig
    sin sout wd :
  let out := ParallelGUFuncBuilder.build w cpu_count as_dtype_num innerfunc
               sig sin sout wd in
  out.1 = Runtime._launch_threads cpu_count wd
  /\ forall dtypenums wrapper,
       out.2 = Some (dtypenums, wrapper) ->
       length dtypenums = length (Types.args sig)
       /\ forall args dimensions steps data,
            (is_Some (run (wrapper args dimensions steps data))
             <-> (inner_ndim sin sout + 1 <= length (cells dimensions))%nat
                 /\ (length dtypenums + 1 <= length (cells args))%nat
                 /\ (length dtypenums + 1 <= length (cells steps))%nat)
            /\ forall m,
                 run (wrapper args dimensions steps data) = Some m ->
                 (forall p, p ∈ omap task_args (events m) ->
                    exists blk, deref m p = Some blk
                                /\ length blk
                                   = (length dtypenums + 1)%nat)
                 /\ forall p, p ∈ omap task_dims (events m) ->
                      exists blk,
                        deref m p = Some blk
                        /\ length blk
                           = (length (remove_dups
                                        (concat sin ++ concat sout))
                              + 1)%nat.
Proof.
  cbn zeta. split; [reflexivity |].
  intros dtypenums wrapper Hout.
  unfold ParallelGUFuncBuilder.build in Hout; cbn [snd] in Hout.
  destruct (mapM _ (Types.args sig)) as [nums |] eqn:Hnums;
    [| discriminate].
  cbn in Hout. injection Hout as <- <-.
  apply length_mapM in Hnums. rewrite <- Hnums.
  split; [reflexivity |].
  intros args dimensions steps data.
  pose proof (NUM_CPU_pos cpu_count) as Hpos.
  unfold build_gufunc_wrapper. split.
  - now apply gufunc_defined.
  - intros m Hm.
    assert (Hsome : is_Some (run (build_gufunc_kernel w
                      (Runtime.NUM_CPU cpu_count) (length (Types.args sig))
                      innerfunc (inner_ndim sin sout) args dimensions steps
                      data)))
      by (rewrite Hm; eauto).
    apply gufunc_defined in Hsome as (Hd & Ha & Hs); [| assumption ..].
    destruct (lookup_lt_is_Some_2 (cells dimensions) 0) as [total Htotal];
      [lia |].
    rewrite (gufunc_final w _ Hpos NUM_CPU_fits _ innerfunc args dimensions
               steps data total Htotal Ha Hs _ Hd) in Hm.
    injection Hm as <-.
    pose proof (counts_length w _ Hpos _ args steps total Ha Hs) as Hcs.
    split.
    + intros p Hp. eapply final_arg_slots; [| exact Hp].
      now rewrite length_fmap.
    + intros p Hp.
      destruct (final_dims_slots _ _ _ _ _ _ _ p Hcs Hp) as (blk & Hblk & Hl).
      exists blk. split; [exact Hblk |].
      rewrite Hl, length_fmap, length_take.
      rewrite <- inner_ndim_size. lia.
Qed.

End Builders.

(** X16: the constructor of [ParallelGUFuncBuilder] switches [nopython] on in
    the caller's own dictionary: whatever the dictionary said before,
    [False] included, it says [True] afterwards, its other options are as
    they were, no other dictionary changes, and constructing a second
    builder with the same dictionary leaves it as the first one did. *)
Theorem init_forces_nopython targetoptions
    (dicts dicts' : gmap nat (gmap string ParallelGUFuncBuilder.value))
    options :
  dicts !! targetoptions = Some options ->
  ParallelGUFuncBuilder.__init__ targetoptions dicts = Some dicts' ->
  (exists options',
      dicts' !! targetoptions = Some options'
      /\ options' !! "nopython" = Some (ParallelGUFuncBuilder.Bool true)
      /\ forall key, key <> "nopython" -> options' !! key = options !! key)
  /\ (forall other, other <> targetoptions ->
        dicts' !! other = dicts !! other)
  /\ ParallelGUFuncBuilder.__init__ targetoptions dicts' = Some dicts'.
Proof.
  intros Hopt Hinit. unfold ParallelGUFuncBuilder.__init__ in *.
  rewrite Hopt in Hinit. cbn in Hinit. injection Hinit as <-.
  split; [| split].
  - eexists. split; [apply lookup_insert_eq |]. split.
    + apply lookup_insert_eq.
    + intros key Hkey. now apply lookup_insert_ne.
  - intros other Hother. now apply lookup_insert_ne.
  - rewrite lookup_insert_eq. cbn.
    now rewrite !insert_insert_eq.
Qed.

(** ** The further properties on concrete inputs *)

Lemma tasks_cover_sequential_pass_witness :
  exists m,
    run (build_ufunc_kernel 64 4 2 777 sample_args sample_dimensions
           sample_steps 555) = Some m
    /\ all_task_bytes 64 8 sample_steps m 4 1
       = Some (chunk_bytes 64 8 2000 (Word.signed 64 8) 10).
Proof.
  apply tasks_cover_sequential_pass with (total := 10) (base := 2000)
                                         (step := 8);
    compute_bound.
Defined.

Lemma total_is_read_unsigned_witness :
  exists m cs,
    run (build_ufunc_kernel 64 4 2 777 sample_args
           (Array 8192 [18446744073709551615]) sample_steps 555) = Some m
    /\ chunk_counts m = Some <$> cs
    /\ total_of cs = 18446744073709551615
    /\ Forall (fun c => 0 <= c <= 18446744073709551615) cs
    /\ (Word.signed 64 18446744073709551615 < 0 -> (2 <= 4)%nat ->
        Z.of_nat 4 <= 2 ^ (64 - 1) ->
        forall i, (i < 4 - 1)%nat ->
          exists c, cs !! i = Some c /\ 0 < Word.signed 64 c).
Proof.
  apply total_is_read_unsigned; compute_bound.
Defined.

Lemma gufunc_pointers_as_elementwise_witness :
  exists m mu,
    run (build_gufunc_kernel 64 4 2 777 2 sample_args sample_dimensions
           sample_steps 555) = Some m
    /\ run (build_ufunc_kernel 64 4 2 777 sample_args sample_dimensions
              sample_steps 555) = Some mu
    /\ events m = events mu
    /\ forall p, p ∈ omap task_args (events m) ->
         deref m p = deref mu p
         /\ exists blk, deref m p = Some blk /\ length blk = (2 + 1)%nat.
Proof.
  apply gufunc_pointers_as_elementwise with (total := 10); compute_bound.
Defined.

Lemma ufunc_wrapper_defined_iff_witness :
  is_Some (run (build_ufunc_kernel 64 4 2 777 sample_args sample_dimensions
                  sample_steps 555))
  <-> (1 <= length (cells sample_dimensions))%nat
      /\ (2 + 1 <= length (cells sample_args))%nat
      /\ (2 + 1 <= length (cells sample_steps))%nat.
Proof.
  apply ufunc_wrapper_defined_iff; compute_bound.
Defined.

Lemma gufunc_wrapper_defined_iff_witness :
  is_Some (run (build_gufunc_kernel 64 4 2 777 3 sample_args
                  sample_dimensions sample_steps 555))
  <-> (3 + 1 <= length (cells sample_dimensions))%nat
      /\ (2 + 1 <= length (cells sample_args))%nat
      /\ (2 + 1 <= length (cells sample_steps))%nat.
Proof.
  apply gufunc_wrapper_defined_iff; compute_bound.
Defined.

Example gufunc_wrapper_short_dimensions :
  run (build_gufunc_kernel 64 4 2 777 3 sample_args sample_dimensions
         sample_steps 555) = None.
Proof. reflexivity. Qed.

Lemma gufunc_wrapper_reads_prefixes_witness :
  run (build_gufunc_kernel 64 4 2 777 2
         (Array 4096 [1000; 2000; 3000; 0; 0])
         (Array 8192 [10; 3; 5; 7])
         (Array 12288 [8; 8; 8; 24; 40]) 555)
  = run (build_gufunc_kernel 64 4 2 777 2 sample_args sample_dimensions
           sample_steps 555).
Proof.
  apply gufunc_wrapper_reads_prefixes; compute_bound.
Defined.

Lemma cas_lock_round_trip_witness :
  exists locked,
    Cas.cas {[16 := 0]} 16 0 1 = Some (0, locked)
    /\ Cas.cas locked 16 0 1 = Some (1, locked)
    /\ Cas.cas locked 16 1 0 = Some (1, {[16 := 0]}).
Proof.
  apply cas_lock_round_trip; [reflexivity | discriminate].
Defined.

Lemma import_registers_cas_before_launch_witness :
  exists wd',
    Runtime.module_body 4 decimal workaround_on python34_darwin (1, 4096)
      Runtime.boot = Some wd'
    /\ Runtime.cas_pointer wd' = 4096
    /\ exists launches,
         Runtime.foreign_calls wd'
         = (Runtime.Lib_set_cas, 4096) :: launches
         /\ (launches = []
             \/ exists n,
                  launches = [(Runtime.Lib_launch_threads, Z.of_nat n)]
                  /\ (1 <= n)%nat /\ n = Nat.max 1 4).
Proof.
  eexists. split; [vm_compute; reflexivity |].
  refine (proj2 (proj2 (import_registers_cas_before_launch 4 decimal
                          workaround_on python34_darwin (1, 4096)
                          Runtime.boot _ _))).
  vm_compute. reflexivity.
Defined.

Lemma zero_switches_eager_launch_off_witness :
  Runtime.module_body 4 decimal {["NUMBA_DYLD_WORKAROUND" := "0"]}
    python26_linux (1, 4096) Runtime.boot
  = Some (Runtime._init (1, 4096) Runtime.boot)
  /\ Runtime.workers (Runtime._init (1, 4096) Runtime.boot)
     = Runtime.workers Runtime.boot.
Proof.
  apply zero_switches_eager_launch_off with (s := "0"); reflexivity.
Defined.

Lemma repeated_builds_witness :
  let wd' := builds 0 3 Runtime.boot in
  Runtime.foreign_calls wd'
  = Runtime.foreign_calls Runtime.boot
      ++ replicate 3 (Runtime.Lib_launch_threads,
                      Z.of_nat (Runtime.NUM_CPU 0))
  /\ ((1 <= 3)%nat ->
      Runtime.workers wd' = Runtime.NUM_CPU 0
      /\ (1 <= Runtime.workers wd')%nat)
  /\ Runtime.cas_pointer wd' = Runtime.cas_pointer Runtime.boot
  /\ Runtime._keepalive wd' = Runtime._keepalive Runtime.boot.
Proof.
  apply repeated_builds. now left.
Defined.

Lemma ufunc_build_lanes_match_dtypes_witness :
  let out := ParallelUFuncBuilder.build 64 4 dtype_table 777 add_signature
               Runtime.boot in
  out.1 = Runtime._launch_threads 4 Runtime.boot
  /\ exists dtypenums wrapper,
       out.2 = Some (dtypenums, wrapper, [])
       /\ length dtypenums = 3%nat
       /\ is_Some (run (wrapper sample_args sample_dimensions sample_steps
                          555)).
Proof.
  cbn zeta.
  destruct (ufunc_build_lanes_match_dtypes 64 4 ltac:(compute_bound)
              dtype_table 777 add_signature Runtime.boot) as [Hwd Hout].
  split; [exact Hwd |].
  exists [12; 12; 12]%nat, (build_ufunc_wrapper 64 4 777 add_signature).
  split; [reflexivity |].
  destruct (Hout [12; 12; 12]%nat (build_ufunc_wrapper 64 4 777 add_signature)
              [] eq_refl) as (Hlen & _ & Hrun).
  split; [exact Hlen |].
  apply (Hrun sample_args sample_dimensions sample_steps 555).
  cbn. lia.
Defined.

Lemma gufunc_build_one_lane_more_than_dtypes_witness :
  let out := ParallelGUFuncBuilder.build 64 4
               (fun ty => dtype_table (Types.name ty)) 777 matmul_signature
               matmul_sin matmul_sout Runtime.boot in
  exists dtypenums wrapper,
    out.2 = Some (dtypenums, wrapper)
    /\ length dtypenums = 3%nat
    /\ ~ is_Some (run (wrapper sample_args (Array 8192 [10; 2; 3; 4])
                         sample_steps 555))
    /\ is_Some (run (wrapper (Array 4096 [1000; 2000; 3000; 0])
                       (Array 8192 [10; 2; 3; 4])
                       (Array 12288 [8; 8; 8; 24]) 555)).
Proof.
  cbn zeta.
  destruct (gufunc_build_one_lane_more_than_dtypes 64 4
              ltac:(compute_bound) (fun ty => dtype_table (Types.name ty))
              777 matmul_signature matmul_sin matmul_sout Runtime.boot)
    as [_ Hout].
  exists [12; 12; 12]%nat,
         (build_gufunc_wrapper 64 4 777 matmul_signature matmul_sin
            matmul_sout).
  split; [reflexivity |].
  destruct (Hout [12; 12; 12]%nat
              (build_gufunc_wrapper 64 4 777 matmul_signature matmul_sin
                 matmul_sout) eq_refl) as (Hlen & Hrun).
  split; [exact Hlen |]. split.
  - intros Hsome.
    apply (Hrun sample_args (Array 8192 [10; 2; 3; 4]) sample_steps 555)
      in Hsome.
    destruct Hsome as (_ & Hargs & _). rewrite Hlen in Hargs.
    cbn in Hargs. lia.
  - apply (Hrun (Array 4096 [1000; 2000; 3000; 0])
             (Array 8192 [10; 2; 3; 4]) (Array 12288 [8; 8; 8; 24]) 555).
    rewrite Hlen. repeat split; vm_compute; lia.
Defined.

Lemma init_forces_nopython_witness :
  (exists options',
      (<[7%nat := <["nopython" := ParallelGUFuncBuilder.Bool true]>
                    {["nopython" := ParallelGUFuncBuilder.Bool false]}]>
         {[7%nat := {["nopython" := ParallelGUFuncBuilder.Bool false]}]}
       : gmap nat (gmap string ParallelGUFuncBuilder.value))
      !! 7%nat = Some options'
      /\ options' !! "nopython" = Some (ParallelGUFuncBuilder.Bool true)
      /\ forall key, key <> "nopython" ->
           options' !! key
           = ({["nopython" := ParallelGUFuncBuilder.Bool false]}
              : gmap string ParallelGUFuncBuilder.value) !! key).
Proof.
  refine (proj1 (init_forces_nopython 7
                   {[7%nat := {["nopython"
                                := ParallelGUFuncBuilder.Bool false]}]}
                   _ {["nopython" := ParallelGUFuncBuilder.Bool false]}
                   _ _)).
  - apply lookup_singleton_eq.
  - unfold ParallelGUFuncBuilder.__init__.
    rewrite lookup_singleton_eq. reflexivity.
Defined.
